(** * Relief weekly KPI pipeline: a shallow embedding of
      [relief_weekly_streamlit_app_final.py] and the properties of its
      summary tables.

    Conventions of the embedding.
    - A DataFrame is a list of rows; a row is a record holding the cells
      the script reads.  A missing cell (NaN / NaT / None) is [None].
    - The columns a batch may lack are recorded in the batch's [columns]
      list, which is what ['X' in df.columns] inspects.
    - Day counts and claim counts are integers ([Z]).  Monetary amounts and
      percentages are exact rationals ([Q]): the script computes them in
      binary floating point, of which [Q] is the exact-arithmetic reading.
    - The script is one top-to-bottom run; an uncaught exception ends it.
      [Script.run_script] threads the list of tables produced so far
      through that run. *)

From Stdlib Require Import List ZArith QArith Qround Qabs String Ascii Bool
  Lia Lqa Permutation Sorted RelationClasses DecimalString.
Import ListNotations.

Local Open Scope string_scope.
Local Open Scope list_scope.
Local Open Scope Z_scope.

(* ------------------------------------------------------------------ *)
(** ** Strings: [str.lower], [str.upper], [str.strip], substring test  *)
(* ------------------------------------------------------------------ *)

Module Str.

Definition is_upper (c : ascii) : bool :=
  let n := N_of_ascii c in (65 <=? n)%N && (n <=? 90)%N.

Definition is_lower (c : ascii) : bool :=
  let n := N_of_ascii c in (97 <=? n)%N && (n <=? 122)%N.

Definition lower_char (c : ascii) : ascii :=
  if is_upper c then ascii_of_N (N_of_ascii c + 32) else c.

Definition upper_char (c : ascii) : ascii :=
  if is_lower c then ascii_of_N (N_of_ascii c - 32) else c.

Fixpoint map_string (f : ascii -> ascii) (s : string) : string :=
  match s with
  | EmptyString => EmptyString
  | String c s' => String (f c) (map_string f s')
  end.

Definition lower : string -> string := map_string lower_char.
Definition upper : string -> string := map_string upper_char.

(** Python's whitespace: space, and the control characters 9 to 13. *)
Definition is_space (c : ascii) : bool :=
  let n := N_of_ascii c in (n =? 32)%N || ((9 <=? n)%N && (n <=? 13)%N).

Fixpoint lstrip (s : string) : string :=
  match s with
  | EmptyString => EmptyString
  | String c s' => if is_space c then lstrip s' else s
  end.

(** [rstrip] keeps a character when something that is not a space
    follows it or when it is not a space itself. *)
Fixpoint rstrip (s : string) : string :=
  match s with
  | EmptyString => EmptyString
  | String c s' =>
      match rstrip s' with
      | EmptyString => if is_space c then EmptyString else String c EmptyString
      | t => String c t
      end
  end.

Definition strip (s : string) : string := rstrip (lstrip s).

(** [sub in s], Python's substring test ([str.contains] with a literal). *)
Fixpoint contains (sub s : string) : bool :=
  String.prefix sub s ||
  match s with
  | EmptyString => false
  | String _ s' => contains sub s'
  end.

Definition mem (s : string) (l : list string) : bool :=
  existsb (String.eqb s) l.

(** Two decimal digits, zero padded; four for years. *)
Definition digit (n : Z) : ascii := ascii_of_N (48 + Z.to_N (n mod 10)).

Definition pad2 (n : Z) : string :=
  String (digit (n / 10)) (String (digit n) EmptyString).

Definition pad4 (n : Z) : string :=
  String (digit (n / 1000)) (String (digit (n / 100)) (pad2 n)).

End Str.

(* ------------------------------------------------------------------ *)
(** ** Calendar dates                                                   *)
(* ------------------------------------------------------------------ *)

Module Date.

Record date := mkDate { year : Z; month : Z; day : Z }.

(** Days since 1970-01-01 of a proleptic Gregorian date, which is what a
    [datetime64] holds and what the difference of two timestamps counts. *)
Definition to_days (d : date) : Z :=
  let y := if month d <=? 2 then year d - 1 else year d in
  let era := y / 400 in
  let yoe := y - era * 400 in
  let mp := (month d + 9) mod 12 in
  let doy := (153 * mp + 2) / 5 + day d - 1 in
  let doe := yoe * 365 + yoe / 4 - yoe / 100 + doy in
  era * 146097 + doe - 719468.

(** [(a - b).dt.days] *)
Definition days_between (a b : date) : Z := to_days a - to_days b.

Definition leb (a b : date) : bool := to_days a <=? to_days b.

(** [strftime('%Y-%m')] and [strftime('%Y-%m-%d')] *)
Definition strftime_Ym (d : date) : string :=
  (Str.pad4 (year d) ++ "-" ++ Str.pad2 (month d))%string.

Definition strftime_Ymd (d : date) : string :=
  (strftime_Ym d ++ "-" ++ Str.pad2 (day d))%string.

End Date.

Import Date.

(* ------------------------------------------------------------------ *)
(** ** The claim-detail batch (report 371.05)                           *)
(* ------------------------------------------------------------------ *)

(** One billed service line, after the script's date parsing and numeric
    coercion ([try_parse_dates], [pd.to_numeric(...).fillna(0.0)]). *)
Record ClaimLine := mkClaimLine {
  Claim_No : option string;
  Rendering_Provider : option string;
  Primary_Payer : option string;
  Start_Date_of_Service : option date;
  Claim_Date : option date;
  Claim_Status_Code : option string;
  Claim_Status_Group_Name : option string;
  Billed_Charge : Q;
  Total_Payment : Q;
  Payer_Payment : Q;
  Contractual_Adjustment : Q;
  Fee_Schedule_Allowed_Fee : Q;
  Total_Balance : Q
}.

Definition option_string_eqb (a b : option string) : bool :=
  match a, b with
  | Some x, Some y => String.eqb x y
  | None, None => true
  | _, _ => false
  end.

(* ------------------------------------------------------------------ *)
(** ** Claim Deduplicator: [df371.drop_duplicates(subset=['Claim No'])] *)
(* ------------------------------------------------------------------ *)

Module Dedup.

Definition seen_before (k : option string) (seen : list (option string))
  : bool :=
  existsb (option_string_eqb k) seen.

(** [drop_duplicates] with the default [keep='first']: a row is kept when
    no earlier row carries its claim number.  pandas counts two missing
    claim numbers as equal, as [option_string_eqb] does. *)
Fixpoint drop_from (seen : list (option string)) (rows : list ClaimLine)
  : list ClaimLine :=
  match rows with
  | [] => []
  | r :: rs =>
      if seen_before (Claim_No r) seen then drop_from seen rs
      else r :: drop_from (Claim_No r :: seen) rs
  end.

Definition drop_duplicates (rows : list ClaimLine) : list ClaimLine :=
  drop_from [] rows.

(** The first row of a batch that carries a given claim number. *)
Definition first_with (k : option string) (rows : list ClaimLine)
  : option ClaimLine :=
  find (fun r => option_string_eqb (Claim_No r) k) rows.

End Dedup.

(* ------------------------------------------------------------------ *)
(** ** Aging bucketing: [pd.cut(AgingDays.fillna(999999), bins, labels)] *)
(* ------------------------------------------------------------------ *)

Module Aging.

Inductive bucket := B0_30 | B31_60 | B61_90 | B91_120 | BAbove120.

Definition labels : list bucket := [B0_30; B31_60; B61_90; B91_120; BAbove120].

Definition label (b : bucket) : string :=
  match b with
  | B0_30 => "0 - 30 Days"
  | B31_60 => "31 - 60 Days"
  | B61_90 => "61 - 90 Days"
  | B91_120 => "91 - 120 Days"
  | BAbove120 => "Above 120 Days"
  end.

(** A bin edge: a finite number or [float("inf")]. *)
Inductive edge := Fin (z : Z) | Inf.

Definition bins : list edge := [Fin (-1); Fin 30; Fin 60; Fin 90; Fin 120; Inf].

Definition lt_edge (e : edge) (x : Z) : bool :=
  match e with Fin z => z <? x | Inf => false end.

Definition le_edge (x : Z) (e : edge) : bool :=
  match e with Fin z => x <=? z | Inf => true end.

(** [pd.cut] with its defaults [right=True], [include_lowest=False]: the
    i-th label is given to the values of the interval (bins[i], bins[i+1]];
    a value in no interval gets no label (NaN). *)
Fixpoint cut (x : Z) (edges : list edge) (labs : list bucket) : option bucket :=
  match edges, labs with
  | lo :: ((hi :: _) as rest), l :: labs' =>
      if lt_edge lo x && le_edge x hi then Some l else cut x rest labs'
  | _, _ => None
  end.

Definition sentinel : Z := 999999.

(** [.fillna(999999)] *)
Definition fillna (a : option Z) : Z :=
  match a with Some x => x | None => sentinel end.

(** [df["AgingBucket"]] of a row from its [AgingDays]. *)
Definition AgingBucket (aging_days : option Z) : option bucket :=
  cut (fillna aging_days) bins labels.

(** [df["AgingDays"] = (today - df["Start Date of Service"]).dt.days] *)
Definition AgingDays (today : date) (dos : option date) : option Z :=
  option_map (fun d => days_between today d) dos.

(** The day ranges the labels stand for. *)
Definition in_range (b : bucket) (x : Z) : Prop :=
  match b with
  | B0_30 => 0 <= x <= 30
  | B31_60 => 31 <= x <= 60
  | B61_90 => 61 <= x <= 90
  | B91_120 => 91 <= x <= 120
  | BAbove120 => 121 <= x
  end.

End Aging.

(* ------------------------------------------------------------------ *)
(** ** Frame helpers: group keys, sums, distinct counts, sorting        *)
(* ------------------------------------------------------------------ *)

Module Frame.

Definition sumZ (l : list Z) : Z := fold_left Z.add l 0.

Definition sumQ (l : list Q) : Q := fold_left Qplus l (0#1).

(** Insertion of a key in an ascending list of distinct keys. *)
Fixpoint insert_key (k : string) (l : list string) : list string :=
  match l with
  | [] => [k]
  | x :: xs =>
      if String.eqb k x then l
      else if String.ltb k x then k :: l
      else x :: insert_key k xs
  end.

(** The group keys of a [groupby]: the distinct non-missing keys, in
    ascending order ([sort=True], [dropna=True]). *)
Fixpoint group_keys (ks : list (option string)) : list string :=
  match ks with
  | [] => []
  | Some k :: ks' => insert_key k (group_keys ks')
  | None :: ks' => group_keys ks'
  end.

(** The rows of one group. *)
Definition group {R : Type} (key : R -> option string) (k : string)
  (rows : list R) : list R :=
  filter (fun r => option_string_eqb (key r) (Some k)) rows.

(** [Series.nunique()]: the number of distinct values, missing ones left
    out. *)
Fixpoint distinct (l : list (option string)) : list string :=
  match l with
  | [] => []
  | None :: l' => distinct l'
  | Some x :: l' =>
      if Str.mem x (distinct l') then distinct l' else x :: distinct l'
  end.

Definition nunique (l : list (option string)) : Z :=
  Z.of_nat (List.length (distinct l)).

(** [df.groupby(key)[col].sum()] *)
Definition groupby_sum {R : Type} (key : R -> option string) (val : R -> Q)
  (rows : list R) : list (string * Q) :=
  map (fun k => (k, sumQ (map val (group key k rows))))
      (group_keys (map key rows)).

(** [df.groupby(key)[col].nunique()] *)
Definition groupby_nunique {R : Type} (key : R -> option string)
  (col : R -> option string) (rows : list R) : list (string * Z) :=
  map (fun k => (k, nunique (map col (group key k rows))))
      (group_keys (map key rows)).

(** [sort_values(by, ascending=False)]: rows in descending order of
    their sort key.  Rows with equal keys keep their relative order here;
    pandas leaves that order to the sorting routine and nothing below
    depends on it. *)
Section SortValues.
Context {R : Type} (geb : R -> R -> bool).

Fixpoint insert_desc (r : R) (l : list R) : list R :=
  match l with
  | [] => [r]
  | x :: xs => if geb r x then r :: l else x :: insert_desc r xs
  end.

Definition sort_values_desc (l : list R) : list R :=
  fold_right insert_desc [] l.

(** The order the sort puts between a row and a later one. *)
Definition not_below (a b : R) : Prop := geb a b = true.
End SortValues.

End Frame.

(* ------------------------------------------------------------------ *)
(** ** Rounding: [Series.round(n)], numpy's round-half-to-even          *)
(* ------------------------------------------------------------------ *)

Module Round.

Local Open Scope Q_scope.

(** [np.rint]: the nearest integer, a tie going to the even neighbour. *)
Definition rint (x : Q) : Z :=
  let f := Qfloor x in
  match Qcompare (x - inject_Z f) (1#2) with
  | Lt => f
  | Gt => (f + 1)%Z
  | Eq => if Z.even f then f else (f + 1)%Z
  end.

(** [round(0)] and [round(2)], as exact rationals. *)
Definition round0 (x : Q) : Q := inject_Z (rint x).

Definition round2 (x : Q) : Q := Qmake (rint (x * 100)) 100.


End Round.

(* ------------------------------------------------------------------ *)
(** ** Preprocessing of the claim-detail batch                          *)
(* ------------------------------------------------------------------ *)

Module Prep.

Record batch371 := mkBatch371 {
  columns371 : list string;
  lines371 : list ClaimLine
}.

Definition has_column (b : batch371) (c : string) : bool :=
  Str.mem c (columns371 b).

Definition fillna_str (d : string) (o : option string) : string :=
  match o with Some s => s | None => d end.

(** The loop of lines 111-113: payer and provider become strings. *)
Definition normalize_line (r : ClaimLine) : ClaimLine :=
  {| Claim_No := Claim_No r;
     Rendering_Provider := Some (fillna_str "" (Rendering_Provider r));
     Primary_Payer := Some (fillna_str "Unknown" (Primary_Payer r));
     Start_Date_of_Service := Start_Date_of_Service r;
     Claim_Date := Claim_Date r;
     Claim_Status_Code := Claim_Status_Code r;
     Claim_Status_Group_Name := Claim_Status_Group_Name r;
     Billed_Charge := Billed_Charge r;
     Total_Payment := Total_Payment r;
     Payer_Payment := Payer_Payment r;
     Contractual_Adjustment := Contractual_Adjustment r;
     Fee_Schedule_Allowed_Fee := Fee_Schedule_Allowed_Fee r;
     Total_Balance := Total_Balance r |}.

(** [line_items] and [claims], the two working copies. *)
Definition line_items (b : batch371) : list ClaimLine :=
  map normalize_line (lines371 b).

Definition claims (b : batch371) : list ClaimLine :=
  map normalize_line (Dedup.drop_duplicates (lines371 b)).

(** [claims['Balance']] *)
Definition Balance (b : batch371) (r : ClaimLine) : Q :=
  if has_column b "Total(Balance)" then Total_Balance r
  else (Billed_Charge r - Total_Payment r - Contractual_Adjustment r)%Q.

Definition EXCLUDE_PROVIDER : string := "salah, ahmad".

Definition DOS_CUTOFF : date := mkDate 2024 11 1.

(** [df['Rendering Provider'].str.lower().str.strip().eq(EXCLUDE_PROVIDER)];
    a missing provider compares unequal. *)
Definition is_excluded_provider (r : ClaimLine) : bool :=
  match Rendering_Provider r with
  | Some p => String.eqb (Str.strip (Str.lower p)) EXCLUDE_PROVIDER
  | None => false
  end.

End Prep.

(* ------------------------------------------------------------------ *)
(** ** 1) Provider-level visits: the provider by month cross-tabulation *)
(* ------------------------------------------------------------------ *)

Module Visits.

Import Frame Prep.

(** [pv]: the claims on or after the cutoff (when the service date column
    exists; a missing date compares false), without the excluded
    provider, deduplicated again. *)
Definition on_or_after_cutoff (r : ClaimLine) : bool :=
  match Start_Date_of_Service r with
  | Some d => Date.leb DOS_CUTOFF d
  | None => false
  end.

Definition pv (b : batch371) : list ClaimLine :=
  let pv0 := claims b in
  let pv1 := if has_column b "Start Date of Service"
             then filter on_or_after_cutoff pv0 else pv0 in
  let pv2 := filter (fun r => negb (is_excluded_provider r)) pv1 in
  Dedup.drop_duplicates pv2.

(** [pv['Month']]: the claim date as "YYYY-MM", missing when the date is
    (NaT); the single label 'Unknown' when the batch has no claim date
    column at all. *)
Definition Month (has_claim_date : bool) (r : ClaimLine) : option string :=
  if has_claim_date then option_map strftime_Ym (Claim_Date r)
  else Some "Unknown".

(** The rows whose claim date parsed. *)
Definition has_claim_date (r : ClaimLine) : bool :=
  match Claim_Date r with Some _ => true | None => false end.

(** A row takes part in [groupby(['Rendering Provider','Month'])] only
    when both keys are present. *)
Definition in_groupby (hcd : bool) (r : ClaimLine) : bool :=
  match Rendering_Provider r, Month hcd r with
  | Some _, Some _ => true
  | _, _ => false
  end.

Definition grouped (hcd : bool) (rows : list ClaimLine) : list ClaimLine :=
  filter (in_groupby hcd) rows.

Definition in_cell (hcd : bool) (p m : string) (r : ClaimLine) : bool :=
  option_string_eqb (Rendering_Provider r) (Some p) &&
  option_string_eqb (Month hcd r) (Some m).

(** One cell of [.nunique().unstack(fill_value=0)]. *)
Definition cell (hcd : bool) (rows : list ClaimLine) (p m : string) : Z :=
  nunique (map Claim_No (filter (in_cell hcd p m) rows)).

Record pt_row := mkPtRow {
  pt_index : string;          (* the row label: a provider, or 'Grand Total' *)
  pt_cells : list Z;          (* one count per month column *)
  pt_Grand_Total : Z          (* the 'Grand Total' column *)
}.

Record pt_table := mkPt {
  pt_months : list string;    (* the month columns *)
  pt_rows : list pt_row
}.

(** [pt], with its 'Grand Total' column [pt.sum(axis=1)]. *)
Definition pt (hcd : bool) (rows : list ClaimLine) : pt_table :=
  let g := grouped hcd rows in
  let months := group_keys (map (Month hcd) g) in
  let providers := group_keys (map Rendering_Provider g) in
  {| pt_months := months;
     pt_rows :=
       map (fun p =>
              let cs := map (cell hcd g p) months in
              mkPtRow p cs (sumZ cs))
           providers |}.

(** [pt.sum()]: the sum of every column over the rows of [pt]. *)
Definition column_sum (rows : list pt_row) (j : nat) : Z :=
  sumZ (map (fun r => nth j (pt_cells r) 0) rows).

Definition total_row (t : pt_table) : pt_row :=
  {| pt_index := "Grand Total";
     pt_cells := map (column_sum (pt_rows t)) (seq 0 (List.length (pt_months t)));
     pt_Grand_Total := sumZ (map pt_Grand_Total (pt_rows t)) |}.

(** [pd.concat([pt, total_row])] *)
Definition concat_total (t : pt_table) : list pt_row :=
  pt_rows t ++ [total_row t].

(** [pt_full.loc['Grand Total','Grand Total']]: the 'Grand Total' cell of
    the row labelled 'Grand Total'.  It is a number when one row carries
    the label (no provider is called 'Grand Total'); with two such rows
    the lookup gives two cells and the share column cannot be assigned. *)
Definition total_claims (rows : list pt_row) : option Z :=
  match filter (fun r => String.eqb (pt_index r) "Grand Total") rows with
  | [r] => Some (pt_Grand_Total r)
  | _ => None
  end.

(** [((x / total_claims) * 100).round(0)]; a zero denominator gives a
    float that is not a number, rendered [None]. *)
Definition pct_share (x total : Z) : option Z :=
  if total =? 0 then None
  else Some (Round.rint ((inject_Z x / inject_Z total) * 100)%Q).

Record pt_full_row := mkPtFullRow {
  pf_row : pt_row;
  pf_Share : option Z         (* the '% Share' column *)
}.

Definition pt_full (hcd : bool) (rows : list ClaimLine)
  : option (list string * list pt_full_row) :=
  let t := pt hcd rows in
  let full := concat_total t in
  match total_claims full with
  | Some total =>
      Some (pt_months t,
            map (fun r => mkPtFullRow r (pct_share (pt_Grand_Total r) total)) full)
  | None => None
  end.

End Visits.

(* ------------------------------------------------------------------ *)
(** ** 2) Payer mix: the count-threshold folding                        *)
(* ------------------------------------------------------------------ *)

Module PayerMix.

Import Frame Prep.

(** [pm_counts]: unique claims per primary payer. *)
Definition pm_counts (cl : list ClaimLine) : list (string * Z) :=
  groupby_nunique Primary_Payer Claim_No cl.

Definition minor_threshold : Z := 10.

Definition OTHER : string := "Other minor payers".

Definition Claims (r : string * Z) : Z := snd r.

(** Lines 173-178: split at the threshold, append the folded row when
    there is something to fold, sort by count, largest first. *)
Definition fold_minor (counts : list (string * Z)) : list (string * Z) :=
  let major := filter (fun r => Claims r >=? minor_threshold) counts in
  let minor := filter (fun r => Claims r <? minor_threshold) counts in
  let major' :=
    match minor with
    | [] => major
    | _ => major ++ [(OTHER, sumZ (map Claims minor))]
    end in
  sort_values_desc (fun a b => Claims a >=? Claims b) major'.

Record mix_row := mkMixRow {
  mix_Primary_Payer : string;
  mix_Claims : Z;
  mix_Pct : option Q          (* missing when the counts sum to zero *)
}.

(** [(major['Claims'] / major['Claims'].sum() * 100).round(2)] *)
Definition Pct (claims total : Z) : option Q :=
  if total =? 0 then None
  else Some (Round.round2 ((inject_Z claims / inject_Z total) * 100)%Q).

Definition add_Pct (tbl : list (string * Z)) : list mix_row :=
  let total := sumZ (map Claims tbl) in
  map (fun r => mkMixRow (fst r) (Claims r) (Pct (Claims r) total)) tbl.

Definition payer_mix_of_counts (counts : list (string * Z)) : list mix_row :=
  add_Pct (fold_minor counts).

Definition payer_mix (b : batch371) : list mix_row :=
  payer_mix_of_counts (pm_counts (claims b)).

(** The folded table as the report describes it, before sorting: the
    rows with at least 10 claims, and one row for all the others when
    there are others. *)
Definition folded_counts (counts : list (string * Z)) : list (string * Z) :=
  let major := filter (fun r => negb (snd r <? 10)) counts in
  let minor := filter (fun r => snd r <? 10) counts in
  match minor with
  | [] => major
  | _ => major ++ [("Other minor payers", sumZ (map snd minor))]
  end.

End PayerMix.

(* ------------------------------------------------------------------ *)
(** ** 3) Insurance AR aging                                            *)
(* ------------------------------------------------------------------ *)

Module ARAging.

Import Frame Prep.

(** [astype(str)] of a text cell: a missing cell prints as "nan". *)
Definition astype_str (o : option string) : string := fillna_str "nan" o.

Definition is_self_pay (r : ClaimLine) : bool :=
  String.eqb (Str.upper (Str.strip (astype_str (Primary_Payer r)))) "SELF PAY".

Definition is_PAT (r : ClaimLine) : bool :=
  Str.contains "PAT" (Str.upper (astype_str (Claim_Status_Code r))).

(** ['Claim Status Code' in df.columns], after
    [df.columns = df.columns.str.strip()]. *)
Definition has_stripped_column (b : batch371) (c : string) : bool :=
  Str.mem c (map Str.strip (columns371 b)).

(** The rows left by the two exclusions.  The section reads the workbook
    again; its rows are the lines of the batch, whose amounts it coerces
    as the preprocessing did. *)
Definition ar_filter (b : batch371) : list ClaimLine :=
  let df1 := filter (fun r => negb (is_self_pay r)) (lines371 b) in
  if has_stripped_column b "Claim Status Code"
  then filter (fun r => negb (is_PAT r)) df1 else df1.

Definition bucket_eqb (a b : Aging.bucket) : bool :=
  match a, b with
  | Aging.B0_30, Aging.B0_30 | Aging.B31_60, Aging.B31_60
  | Aging.B61_90, Aging.B61_90 | Aging.B91_120, Aging.B91_120
  | Aging.BAbove120, Aging.BAbove120 => true
  | _, _ => false
  end.

Definition row_bucket (today : date) (r : ClaimLine) : option Aging.bucket :=
  Aging.AgingBucket (Aging.AgingDays today (Start_Date_of_Service r)).

Definition in_bucket (today : date) (k : Aging.bucket) (r : ClaimLine) : bool :=
  match row_bucket today r with
  | Some k' => bucket_eqb k k'
  | None => false
  end.

Definition Charges (r : ClaimLine) : Q := Billed_Charge r.
Definition AllowedFee (r : ClaimLine) : Q := Fee_Schedule_Allowed_Fee r.
Definition PaymentsCollected (r : ClaimLine) : Q := Total_Payment r.
Definition ExpectedPayments (r : ClaimLine) : Q := AllowedFee r.
Definition Pending (r : ClaimLine) : Q :=
  (ExpectedPayments r - PaymentsCollected r)%Q.

Record aging_row := mkAgingRow {
  ag_AgingBucket : string;
  ag_Charges : Q;
  ag_AllowedFee : Q;
  ag_ExpectedPayments : Q;
  ag_PaymentsCollected : Q;
  ag_Pending : Q
}.

(** [df.groupby("AgingBucket").agg(...)]: the bucket is a categorical and
    the group-by keeps unobserved categories (pandas 2, [observed=False]),
    so every label has a row, an empty bucket summing to zero; a row
    without a bucket is in no group. *)
Definition aging_summary (today : date) (df : list ClaimLine) : list aging_row :=
  map (fun k =>
         let g := filter (in_bucket today k) df in
         {| ag_AgingBucket := Aging.label k;
            ag_Charges := sumQ (map Charges g);
            ag_AllowedFee := sumQ (map AllowedFee g);
            ag_ExpectedPayments := sumQ (map ExpectedPayments g);
            ag_PaymentsCollected := sumQ (map PaymentsCollected g);
            ag_Pending := sumQ (map Pending g) |})
      Aging.labels.

(** Lines 238-247: the totals of the five columns, as one more row. *)
Definition total_row (s : list aging_row) : aging_row :=
  {| ag_AgingBucket := "Grand Total";
     ag_Charges := sumQ (map ag_Charges s);
     ag_AllowedFee := sumQ (map ag_AllowedFee s);
     ag_ExpectedPayments := sumQ (map ag_ExpectedPayments s);
     ag_PaymentsCollected := sumQ (map ag_PaymentsCollected s);
     ag_Pending := sumQ (map ag_Pending s) |}.

Definition aging_summary_full (today : date) (b : batch371) : list aging_row :=
  let s := aging_summary today (ar_filter b) in
  s ++ [total_row s].

End ARAging.

(* ------------------------------------------------------------------ *)
(** ** 4) Charges, payments and adjustments: the monthly summary        *)
(* ------------------------------------------------------------------ *)

Module Monthly.

Import Frame.

(** One row of the daily-transactions batch (report 123.07).  Its amounts
    are not coerced by the script: a missing one stays missing and is
    skipped by the sums. *)
Record Transaction := mkTransaction {
  t_Date : option date;
  t_Billed_Charges : option Q;
  t_Patient_Payments : option Q;
  t_Payer_Payments : option Q;
  t_Contractual_Adjustments : option Q;
  t_Posting_Status : option string
}.

Record batch123 := mkBatch123 {
  columns123 : list string;
  rows123 : list Transaction
}.

(** [try_parse_dates(df123, ['Date'])] *)
Definition date123_col (b : batch123) : option string :=
  if Str.mem "Date" (columns123 b) then Some "Date" else None.

(** [dt.to_period('M').astype(str)] *)
Definition Month (t : Transaction) : option string :=
  match t_Date t with
  | Some d => Some (strftime_Ym d)
  | None => Some "NaT"
  end.

Definition month_abbr (m : Z) : string :=
  nth (Z.to_nat (m - 1))
      ["Jan"; "Feb"; "Mar"; "Apr"; "May"; "Jun";
       "Jul"; "Aug"; "Sep"; "Oct"; "Nov"; "Dec"] "".

(** [strftime('%b %Y')] *)
Definition strftime_bY (d : date) : string :=
  (month_abbr (month d) ++ " " ++ Str.pad4 (year d))%string.

(** ['TRANSACTION MONTH']: the month key read back as a date and printed
    as "Mon YYYY" (the [try] branch); the key of the undated rows reads
    back as no date.  The date is taken from the first row of the group,
    whose key it printed. *)
Definition transaction_month (g : list Transaction) : option string :=
  match g with
  | t :: _ => option_map strftime_bY (t_Date t)
  | [] => None
  end.

(** A column sum skips the missing cells. *)
Definition skipna (o : option Q) : Q :=
  match o with Some q => q | None => 0#1 end.

Record month_row := mkMonthRow {
  TRANSACTION_MONTH : option string;
  BILLED_CHARGES : Q;
  PATIENT_PAYMENTS : Q;
  PAYER_PAYMENTS : Q;
  CONTRACTUAL_ADJUSTMENTS : Q
}.

Definition monthly_summary (rows : list Transaction) : list month_row :=
  map (fun k =>
         let g := group Month k rows in
         {| TRANSACTION_MONTH := transaction_month g;
            BILLED_CHARGES := sumQ (map (fun t => skipna (t_Billed_Charges t)) g);
            PATIENT_PAYMENTS := sumQ (map (fun t => skipna (t_Patient_Payments t)) g);
            PAYER_PAYMENTS := sumQ (map (fun t => skipna (t_Payer_Payments t)) g);
            CONTRACTUAL_ADJUSTMENTS :=
              sumQ (map (fun t => skipna (t_Contractual_Adjustments t)) g) |})
      (group_keys (map Month rows)).

Definition total_row (s : list month_row) : month_row :=
  {| TRANSACTION_MONTH := Some "Grand Total";
     BILLED_CHARGES := sumQ (map BILLED_CHARGES s);
     PATIENT_PAYMENTS := sumQ (map PATIENT_PAYMENTS s);
     PAYER_PAYMENTS := sumQ (map PAYER_PAYMENTS s);
     CONTRACTUAL_ADJUSTMENTS := sumQ (map CONTRACTUAL_ADJUSTMENTS s) |}.

(** The table is produced only when the batch has its 'Date' column. *)
Definition monthly_summary_full (b : batch123) : option (list month_row) :=
  match date123_col b with
  | None => None
  | Some _ =>
      let s := monthly_summary (rows123 b) in
      Some (s ++ [total_row s])
  end.

End Monthly.

(* ------------------------------------------------------------------ *)
(** ** 5) Payments by payer: the quantile-threshold folding             *)
(* ------------------------------------------------------------------ *)

Module Payments.

Import Frame Prep.

Definition Qlt_bool (x y : Q) : bool :=
  (Qnum x * QDen y <? Qnum y * QDen x)%Z.

(** [li], and the payments summed per payer. *)
Definition payments_by_payer (b : batch371) : list (string * Q) :=
  let li := filter (fun r => negb (is_excluded_provider r)) (line_items b) in
  groupby_sum Primary_Payer Payer_Payment li.

Definition Amount (r : string * Q) : Q := snd r.

Fixpoint insert_asc (x : Q) (l : list Q) : list Q :=
  match l with
  | [] => [x]
  | y :: ys => if Qle_bool x y then x :: l else y :: insert_asc x ys
  end.

Definition sort_asc (l : list Q) : list Q := fold_right insert_asc [] l.

(** [Series.quantile(q)] with linear interpolation: in the ascending
    values, position [q * (n - 1)], interpolated between its two
    neighbours; not a number on an empty series. *)
Definition quantile (q : Q) (vals : list Q) : option Q :=
  match sort_asc vals with
  | [] => None
  | s =>
      let n := Z.of_nat (List.length s) in
      let h := (q * inject_Z (n - 1))%Q in
      let lo := Qfloor h in
      let hi := Z.min (lo + 1) (n - 1) in
      let a := nth (Z.to_nat lo) s (0#1) in
      let c := nth (Z.to_nat hi) s (0#1) in
      Some (a + (c - a) * (h - inject_Z lo))%Q
  end.

(** Lines 314-316: the 10th percentile, or 1.0 when it is not a number
    or not positive. *)
Definition minor_threshold_amount (tbl : list (string * Q)) : Q :=
  match quantile (1#10) (map Amount tbl) with
  | None => 1#1
  | Some t => if Qle_bool t (0#1) then 1#1 else t
  end.

Definition OTHER : string := "Other minor payers".

(** Lines 318-324. *)
Definition fold_minor (tbl : list (string * Q)) : list (string * Q) :=
  let thr := minor_threshold_amount tbl in
  let major := filter (fun r => Qle_bool thr (Amount r)) tbl in
  let minor := filter (fun r => Qlt_bool (Amount r) thr) tbl in
  let major' :=
    match minor with
    | [] => major
    | _ => major ++ [(OTHER, sumQ (map Amount minor))]
    end in
  sort_values_desc (fun a b => Qle_bool (Amount b) (Amount a)) major'.

Definition payments_by_payer_final (b : batch371) : list (string * Q) :=
  fold_minor (payments_by_payer b).

End Payments.

(* ------------------------------------------------------------------ *)
(** ** Exceptions of a run                                              *)
(* ------------------------------------------------------------------ *)

Inductive exn :=
| KeyError (missing : list string)    (* columns asked for and not found *)
| NameError (name : string)           (* a variable read before assignment *)
| ValueError (what : string).         (* a column that cannot be aligned *)

Inductive result (A : Type) :=
| Ok (a : A)
| Raise (e : exn).

Arguments Ok {A} a.
Arguments Raise {A} e.

(* ------------------------------------------------------------------ *)
(** ** Remittance Normalizer (ERA)                                      *)
(* ------------------------------------------------------------------ *)

Module ERA.

Import Frame.

(** A cell of the remittance sheet, whose columns the script does not
    know in advance. *)
Inductive cell :=
| CStr (s : string)
| CNum (q : Q)
| CDate (d : date)
| CNaN.

Record frame := mkFrame {
  columns : list string;
  rows : list (list cell)     (* each row aligned with [columns] *)
}.

(** The scalar conversions of pandas, which the script calls and does not
    define: [str(x)] of [astype(str)], and the parsers behind
    [pd.to_datetime] and [pd.to_numeric] with [errors='coerce'] (no result
    on a cell that does not parse). *)
Class Conversions := {
  py_str : cell -> string;
  to_datetime : cell -> option date;
  to_numeric : cell -> option Q
}.

Fixpoint index_of (c : string) (cols : list string) : option nat :=
  match cols with
  | [] => None
  | x :: xs => if String.eqb c x then Some O
               else option_map S (index_of c xs)
  end.

Definition get (f : frame) (c : string) (row : list cell) : cell :=
  match index_of c (columns f) with
  | Some i => nth i row CNaN
  | None => CNaN
  end.

(** [df[cols]]: the listed columns, in the listed order; a [KeyError]
    naming the absent ones when some are absent. *)
Definition select (cols : list string) (f : frame) : result frame :=
  match filter (fun c => negb (Str.mem c (columns f))) cols with
  | [] => Ok {| columns := cols;
                rows := map (fun r => map (fun c => get f c r) cols) (rows f) |}
  | missing => Raise (KeyError missing)
  end.

(** [df.rename(columns=mapping)] *)
Definition rename (mapping : list (string * string)) (f : frame) : frame :=
  {| columns :=
       map (fun c =>
              match find (fun kv => String.eqb (fst kv) c) mapping with
              | Some kv => snd kv
              | None => c
              end) (columns f);
     rows := rows f |}.

(** [df[c] = g(df[c])], cell by cell. *)
Definition update (c : string) (g : cell -> cell) (f : frame) : frame :=
  {| columns := columns f;
     rows := map (fun r =>
                    map (fun jx => if String.eqb (fst jx) c then g (snd jx)
                                   else snd jx)
                        (combine (columns f) r))
                 (rows f) |}.

Definition needed_cols : list string :=
  ["Payer"; "Method"; "Dated"; "Trace"; "Amount"].

Definition canonical_names : list (string * string) :=
  [("Trace", "CHECK/EFT #"); ("Dated", "DATE"); ("Method", "METHOD");
   ("Payer", "PAYER"); ("Amount", "AMOUNT")].

(** The column names of the ledger. *)
Definition canonical_columns : list string :=
  ["PAYER"; "METHOD"; "DATE"; "CHECK/EFT #"; "AMOUNT"].

Definition amount_of (c : cell) : Q :=
  match c with CNum q => q | _ => 0#1 end.

Section Normalizer.
Context {conv : Conversions}.

(** [.astype(str)] *)
Definition astype_str (c : cell) : cell := CStr (py_str c).

(** [pd.to_datetime(..., errors='coerce').dt.strftime('%Y-%m-%d')] *)
Definition format_date (c : cell) : cell :=
  match to_datetime c with
  | Some d => CStr (strftime_Ymd d)
  | None => CNaN
  end.

(** [pd.to_numeric(..., errors='coerce').fillna(0)] *)
Definition coerce_amount (c : cell) : cell :=
  match to_numeric c with
  | Some q => CNum q
  | None => CNum (0#1)
  end.

(** Lines 354-357. *)
Definition fix_types (era : frame) : frame :=
  let era1 := update "CHECK/EFT #" astype_str era in
  let era2 := if Str.mem "DATE" (columns era1)
              then update "DATE" format_date era1 else era1 in
  update "AMOUNT" coerce_amount era2.

Definition AMOUNT (era : frame) (row : list cell) : Q :=
  amount_of (get era "AMOUNT" row).

(** Lines 360-369: sort by amount, largest first, and append the
    total. *)
Definition with_total (era : frame) : frame :=
  let sorted :=
    sort_values_desc (fun a b => Qle_bool (AMOUNT era b) (AMOUNT era a))
                     (rows era) in
  let total_amt := sumQ (map (AMOUNT era) sorted) in
  let total_row :=
    map (fun c =>
           if String.eqb c "PAYER" then CStr "Grand Total"
           else if String.eqb c "AMOUNT" then CNum total_amt
           else if Str.mem c ["METHOD"; "DATE"; "CHECK/EFT #"] then CStr ""
           else CNaN)
        (columns era) in
  {| columns := columns era; rows := sorted ++ [total_row] |}.

(** [era_full] from [df_era], lines 343-369. *)
Definition era_full (df_era : frame) : result frame :=
  match select needed_cols df_era with
  | Raise e => Raise e
  | Ok era => Ok (with_total (fix_types (rename canonical_names era)))
  end.
End Normalizer.

(** The conversions on cells that already hold a value of the wanted
    kind: a text prints as itself, a whole number as its decimal digits, a
    date cell is a date, a number cell is a number, and nothing else
    parses.  Used to run the normalizer on concrete sheets. *)
Definition typed_cells : Conversions :=
  {| py_str := fun c => match c with
                        | CStr s => s
                        | CDate d => strftime_Ymd d
                        | CNum q => NilZero.string_of_int (Z.to_int (Qfloor q))
                        | CNaN => "nan"
                        end;
     to_datetime := fun c => match c with CDate d => Some d | _ => None end;
     to_numeric := fun c => match c with CNum q => Some q | _ => None end |}.

End ERA.

(* ------------------------------------------------------------------ *)
(** ** Unposted payments and denials                                    *)
(* ------------------------------------------------------------------ *)

Module Denials.

Import Frame Prep.

(** [str.contains(sub, case=False)] *)
Definition icontains (sub s : string) : bool :=
  Str.contains (Str.lower sub) (Str.lower s).

(** [df123['Posting Status'] ... contains('unpost', case=False, na=False)],
    empty when the column is absent. *)
Definition unposted (b : Monthly.batch123) : list Monthly.Transaction :=
  if Str.mem "Posting Status" (Monthly.columns123 b)
  then filter (fun t => icontains "unpost"
                          (ARAging.astype_str (Monthly.t_Posting_Status t)))
              (Monthly.rows123 b)
  else [].

Definition is_denied (r : ClaimLine) : bool :=
  icontains "den" (ARAging.astype_str (Claim_Status_Group_Name r)).

Record den_row := mkDenRow {
  den_Group : string;
  den_Count : Z;
  den_ARBalance : Q
}.

Definition den_summary (b : batch371) : list den_row :=
  let denials := filter is_denied (claims b) in
  sort_values_desc (fun x y => den_Count x >=? den_Count y)
    (map (fun k =>
            let g := group Claim_Status_Group_Name k denials in
            mkDenRow k (nunique (map Claim_No g)) (sumQ (map (Balance b) g)))
         (group_keys (map Claim_Status_Group_Name denials))).

End Denials.

(* ------------------------------------------------------------------ *)
(** ** The run of the script                                            *)
(* ------------------------------------------------------------------ *)

Module Script.

Import Prep.

(** What the sidebar hands to a run. *)
Record inputs := mkInputs {
  file_371 : option batch371;
  file_123 : option Monthly.batch123;
  file_era : option ERA.frame;
  enable_export : bool;
  today : date
}.

(** The tables a run shows, and the workbook it offers, in the order of
    the script. *)
Inductive output :=
| Provider_Visits (months : list string) (t : list Visits.pt_full_row)
| Payer_Mix (t : list PayerMix.mix_row)
| AR_Aging_Summary (t : list ARAging.aging_row)
| Monthly_Summary (t : list Monthly.month_row)
| Payments_By_Payer (t : list (string * Q))
| Unposted (t : list Monthly.Transaction)
| ERA_Payments (t : ERA.frame)
| Denials_Summary (t : list Denials.den_row)
| KPI_Workbook (sheets : list string).

(** How a run ends: at the last line, at [st.stop()], or at an uncaught
    exception. *)
Inductive ending :=
| Completed
| Stopped
| Failed (e : exn).

(** A step of the run: it reads the outputs shown so far, adds its own,
    and either goes on with a value or ends the run. *)
Definition M (A : Type) : Type := list output -> list output * (A + ending).

Definition ret {A} (a : A) : M A := fun out => (out, inl a).

Definition bind {A B} (m : M A) (k : A -> M B) : M B :=
  fun out =>
    match m out with
    | (out', inl a) => k a out'
    | (out', inr e) => (out', inr e)
    end.

Definition show (o : output) : M unit := fun out => (out ++ [o], inl tt).

Definition finish {A} (e : ending) : M A := fun out => (out, inr e).

Definition when (c : bool) (m : M unit) : M unit := if c then m else ret tt.

Definition lift {A} (r : result A) : M A :=
  match r with
  | Ok a => ret a
  | Raise e => finish (Failed e)
  end.

(** Reading a variable of the script: a [NameError] when no assignment
    has bound it. *)
Definition read_var {A} (name : string) (binding : option A) : M A :=
  match binding with
  | Some v => ret v
  | None => finish (Failed (NameError name))
  end.

Notation "x <- m ;; k" := (bind m (fun x => k))
  (at level 61, m at next level, right associativity).
Notation "m ;;; k" := (bind m (fun _ => k))
  (at level 61, right associativity).

Definition is_empty {A} (l : list A) : bool :=
  match l with [] => true | _ => false end.

Section Run.
Context {conv : ERA.Conversions}.

(** Sections 1 to 5 of the script, lines 132-329. *)
Definition kpi_modules (i : inputs) (df371 : batch371)
  (df123 : Monthly.batch123) : M unit :=
  pt <- match Visits.pt_full (has_column df371 "Claim Date")
                             (Visits.pv df371) with
        | Some t => ret t
        | None => finish (Failed (ValueError "% Share"))
        end ;;
  show (Provider_Visits (fst pt) (snd pt)) ;;;
  show (Payer_Mix (PayerMix.payer_mix df371)) ;;;
  show (AR_Aging_Summary (ARAging.aging_summary_full (today i) df371)) ;;;
  match Monthly.monthly_summary_full df123 with
  | Some t => show (Monthly_Summary t)
  | None => ret tt
  end ;;;
  show (Payments_By_Payer (Payments.payments_by_payer_final df371)).

(** The expander of lines 333-384: unposted rows, the ERA ledger, the
    denials summary. *)
Definition unposted_era_denials (i : inputs) (df371 : batch371)
  (df123 : Monthly.batch123) : M (option ERA.frame) :=
  let unposted := Denials.unposted df123 in
  when (negb (is_empty unposted)) (show (Unposted unposted)) ;;;
  (* if file_era is not None: df_era = load_file(file_era) *)
  let df_era : option ERA.frame :=
    match file_era i with
    | Some sheet => Some sheet          (* assigned *)
    | None => None                      (* never assigned *)
    end in
  (* era = df_era[needed_cols].copy() ..., outside the [if] *)
  df <- read_var "df_era" df_era ;;
  era_full <- lift (ERA.era_full df) ;;
  show (ERA_Payments era_full) ;;;
  let den_summary := Denials.den_summary df371 in
  when (negb (is_empty den_summary)) (show (Denials_Summary den_summary)) ;;;
  ret (Some era_full).

(** Lines 387-396. *)
Definition export (i : inputs) : M unit :=
  when (enable_export i)
    (show (KPI_Workbook
             (["Provider_Visits"]
              ++ (match file_era i with Some _ => ["ERA"] | None => [] end)
              ++ ["raw_371_filtered"; "raw_123"]))).

Definition script (i : inputs) : M unit :=
  match file_371 i, file_123 i with
  | Some df371, Some df123 =>
      kpi_modules i df371 df123 ;;;
      unposted_era_denials i df371 df123 ;;;
      export i
  | _, _ => finish Stopped
  end.

(** A run, from nothing shown: the outputs and the ending. *)
Definition run_script (i : inputs) : list output * ending :=
  match script i [] with
  | (out, inl _) => (out, Completed)
  | (out, inr e) => (out, e)
  end.
End Run.

(** What sections 1 to 5 and the unposted rows show, given the
    cross-tab: the outputs of a run up to the ERA block. *)
Definition shown_before_era (i : inputs) (df371 : batch371)
  (df123 : Monthly.batch123) (months : list string)
  (pt : list Visits.pt_full_row) : list output :=
  [Provider_Visits months pt;
   Payer_Mix (PayerMix.payer_mix df371);
   AR_Aging_Summary (ARAging.aging_summary_full (today i) df371)]
  ++ match Monthly.monthly_summary_full df123 with
     | Some t => [Monthly_Summary t]
     | None => []
     end
  ++ [Payments_By_Payer (Payments.payments_by_payer_final df371)]
  ++ match Denials.unposted df123 with
     | [] => []
     | u => [Unposted u]
     end.


Definition is_Denials (o : output) : bool :=
  match o with Denials_Summary _ => true | _ => false end.

Definition is_Workbook (o : output) : bool :=
  match o with KPI_Workbook _ => true | _ => false end.

End Script.

(* ------------------------------------------------------------------ *)
(** ** Sample batches                                                   *)
(* ------------------------------------------------------------------ *)

Module Samples.

(** One service line of a claim, everything else blank. *)
Definition cpt_line (no : string) (charge : Q) : ClaimLine :=
  {| Claim_No := Some no; Rendering_Provider := Some "Lee, Ann";
     Primary_Payer := Some "Aetna"; Start_Date_of_Service := None;
     Claim_Date := None; Claim_Status_Code := None;
     Claim_Status_Group_Name := None; Billed_Charge := charge;
     Total_Payment := 0#1; Payer_Payment := 0#1;
     Contractual_Adjustment := 0#1; Fee_Schedule_Allowed_Fee := 0#1;
     Total_Balance := 0#1 |}.

Definition jan15 : date := mkDate 2025 1 15.

Definition visit (no provider group : string) : ClaimLine :=
  {| Claim_No := Some no; Rendering_Provider := Some provider;
     Primary_Payer := Some "Aetna"; Start_Date_of_Service := Some jan15;
     Claim_Date := Some jan15; Claim_Status_Code := Some "BIL";
     Claim_Status_Group_Name := Some group; Billed_Charge := 100#1;
     Total_Payment := 40#1; Payer_Payment := 40#1;
     Contractual_Adjustment := 10#1; Fee_Schedule_Allowed_Fee := 80#1;
     Total_Balance := 50#1 |}.

(** Eight claims of January 2025: one visit of Dr. Adams, seven of
    Dr. Brown; the first claim is denied. *)
Definition eight_claims : Prep.batch371 :=
  {| Prep.columns371 :=
       ["Claim No"; "Rendering Provider"; "Primary Payer";
        "Start Date of Service"; "Claim Date"; "Claim Status Code";
        "Claim Status Group Name"; "Billed Charge"; "Total Payment";
        "Payer Payment"; "Contractual Adjustment";
        "Fee Schedule Allowed Fee"; "Total(Balance)"];
     Prep.lines371 :=
       [visit "C1" "Adams" "Denied"; visit "C2" "Brown" "Paid";
        visit "C3" "Brown" "Paid"; visit "C4" "Brown" "Paid";
        visit "C5" "Brown" "Paid"; visit "C6" "Brown" "Paid";
        visit "C7" "Brown" "Paid"; visit "C8" "Brown" "Paid"] |}.

Definition transactions : Monthly.batch123 :=
  {| Monthly.columns123 := ["Date"; "Billed Charges"; "Patient Payments";
                            "Payer Payments"; "Contractual Adjustments"];
     Monthly.rows123 :=
       [Monthly.mkTransaction (Some jan15) (Some (800#1)) (Some (20#1))
          (Some (320#1)) (Some (80#1)) None;
        Monthly.mkTransaction (Some (mkDate 2025 2 3)) (Some (50#1)) None
          (Some (10#1)) None None] |}.

(** A remittance sheet with the five fields, and the same sheet without
    its "Trace" column. *)
Definition remittance : ERA.frame :=
  {| ERA.columns := ["Payer"; "Method"; "Dated"; "Trace"; "Amount"];
     ERA.rows :=
       [[ERA.CStr "Aetna"; ERA.CStr "EFT"; ERA.CDate jan15;
         ERA.CNum (90017#1); ERA.CNum (120#1)];
        [ERA.CStr "Cigna"; ERA.CStr "CHK"; ERA.CStr "n/a";
         ERA.CStr "A-204"; ERA.CNum (300#1)]] |}.


Definition uploads (era : option ERA.frame) : Script.inputs :=
  {| Script.file_371 := Some eight_claims;
     Script.file_123 := Some transactions;
     Script.file_era := era;
     Script.enable_export := true;
     Script.today := mkDate 2025 3 1 |}.

End Samples.

(* ------------------------------------------------------------------ *)
(** ** Row predicates used to state what the tables count               *)
(* ------------------------------------------------------------------ *)

Module Rows.

Definition is_some {A} (o : option A) : bool :=
  match o with Some _ => true | None => false end.

(** The rows that carry a claim number. *)
Definition has_claim_no (r : ClaimLine) : bool := is_some (Claim_No r).

(** One for a row with a claim number, zero for a row without. *)
Definition counted (r : ClaimLine) : Z := if has_claim_no r then 1 else 0.

(** Strict order of the group keys. *)
Definition key_lt (a b : string) : Prop := String.ltb a b = true.

End Rows.

(* ------------------------------------------------------------------ *)
(** ** Rows that reach the tables                                       *)
(* ------------------------------------------------------------------ *)

Module Reach.

(** The rows of the AR-aging frame that were given a bucket. *)
Definition has_bucket (today : date) (r : ClaimLine) : bool :=
  Rows.is_some (ARAging.row_bucket today r).

(** The line items whose payments are summed per payer (lines 308-310). *)
Definition li (b : Prep.batch371) : list ClaimLine :=
  filter (fun r => negb (Prep.is_excluded_provider r)) (Prep.line_items b).

(** The rows of [pv] that enter a cell of the cross-tab and count in it. *)
Definition counted_visit (hcd : bool) (r : ClaimLine) : bool :=
  Visits.in_groupby hcd r && Rows.has_claim_no r.

End Reach.

(* ------------------------------------------------------------------ *)
(** ** Chart frames, and the order of the buckets                       *)
(* ------------------------------------------------------------------ *)

Module Charts.

(** [pie_df_chart], lines 161-162: provider and grand total of the rows
    of [pt_full] that are not labelled 'Grand Total'. *)
Definition pie_df_chart (full : list Visits.pt_full_row) : list (string * Z) :=
  map (fun r => (Visits.pt_index (Visits.pf_row r),
                 Visits.pt_Grand_Total (Visits.pf_row r)))
      (filter (fun r => negb (String.eqb (Visits.pt_index (Visits.pf_row r))
                                         "Grand Total"))
              full).

(** [chart_df], line 254. *)
Definition chart_df (full : list ARAging.aging_row) : list ARAging.aging_row :=
  filter (fun r => negb (String.eqb (ARAging.ag_AgingBucket r) "Grand Total"))
         full.

(** The place of a bucket among the labels, youngest first. *)
Definition rank (b : Aging.bucket) : Z :=
  match b with
  | Aging.B0_30 => 0
  | Aging.B31_60 => 1
  | Aging.B61_90 => 2
  | Aging.B91_120 => 3
  | Aging.BAbove120 => 4
  end.

End Charts.

(* ------------------------------------------------------------------ *)
(** ** The ledger row of a sheet row                                    *)
(* ------------------------------------------------------------------ *)

Module Ledger.

Import ERA.

Section Rows.
Context {conv : Conversions}.

(** What lines 344-357 make of one row of the sheet. *)
Definition ledger_row (df : frame) (row : list cell) : list cell :=
  [get df "Payer" row; get df "Method" row;
   format_date (get df "Dated" row);
   astype_str (get df "Trace" row);
   coerce_amount (get df "Amount" row)].

(** The amount of a sheet row as a number, zero when it does not parse. *)
Definition parsed_amount (df : frame) (row : list cell) : Q :=
  match to_numeric (get df "Amount" row) with
  | Some q => q
  | None => 0#1
  end.
End Rows.

(** The last row of the ledger. *)
Definition grand_total_row (total : Q) : list cell :=
  [CStr "Grand Total"; CStr ""; CStr ""; CStr ""; CNum total].

End Ledger.

(* ------------------------------------------------------------------ *)
(** ** Utility functions (lines 31-61)                                  *)
(* ------------------------------------------------------------------ *)

Module Util.

Definition REQUIRED_371 : list string :=
  ["Claim Status Code"; "Claim Status Group Name";
   "Primary Payer"; "Claim No"; "Rendering Provider"; "Billed Charge";
   "Payer Charge"; "Total Payment"; "Payer Payment"; "Patient Payment";
   "Contractual Adjustment"; "Fee Schedule Allowed Fee"; "Total(Balance)"].

Definition REQUIRED_123 : list string :=
  ["Date"; "Billed Charges"; "Self Pay Charges"; "Payer Charges";
   "Total Payments"; "Patient Payments"; "Payer Payments";
   "Contractual Adjustments"].

(** [validate_columns]: the required columns the frame lacks (a warning
    is shown when there are some; the run goes on). *)
Definition validate_columns (columns required : list string) : list string :=
  filter (fun c => negb (Str.mem c columns)) required.

(** [try_parse_dates]: the first candidate that is a column of the frame,
    which is parsed in place (the date cells of the rows are that
    result). *)
Fixpoint try_parse_dates (columns col_candidates : list string)
  : option string :=
  match col_candidates with
  | [] => None
  | c :: cs => if Str.mem c columns then Some c
               else try_parse_dates columns cs
  end.

(** [dos_col], line 96. *)
Definition dos_col (b : Prep.batch371) : option string :=
  try_parse_dates (Prep.columns371 b) ["Start Date of Service"; "DOS"].

End Util.

(* ================================================================== *)
(** * Properties                                                        *)
(* ================================================================== *)

Lemma option_string_eqb_eq a b : option_string_eqb a b = true <-> a = b.
Proof.
  destruct a as [x|], b as [y|]; simpl; try (split; congruence).
  rewrite String.eqb_eq. split; congruence.
Qed.

Lemma option_string_eqb_refl a : option_string_eqb a a = true.
Proof. now apply option_string_eqb_eq. Qed.

Lemma option_string_eqb_neq a b : option_string_eqb a b = false <-> a <> b.
Proof.
  rewrite <- option_string_eqb_eq. destruct (option_string_eqb a b); split;
    congruence.
Qed.

(* ------------------------------------------------------------------ *)
(** ** The Deduplicator                                                 *)
(* ------------------------------------------------------------------ *)

Module DedupFacts.

Import Dedup.

Lemma seen_before_In k seen : seen_before k seen = true <-> In k seen.
Proof.
  unfold seen_before. rewrite existsb_exists. split.
  - intros (x & Hx & E). apply option_string_eqb_eq in E. now subst.
  - intros H. exists k. split; [assumption | apply option_string_eqb_refl].
Qed.

Lemma seen_before_not_In k seen : seen_before k seen = false <-> ~ In k seen.
Proof.
  rewrite <- seen_before_In. destruct (seen_before k seen); split; congruence.
Qed.

(** The claim numbers kept are those of the batch not already seen. *)
Lemma drop_from_keys seen rows k :
  In k (map Claim_No (drop_from seen rows)) <->
  In k (map Claim_No rows) /\ ~ In k seen.
Proof.
  revert seen. induction rows as [|r rs IH]; intros seen; simpl.
  - tauto.
  - destruct (seen_before (Claim_No r) seen) eqn:E.
    + apply seen_before_In in E. rewrite IH. split.
      * intros [H1 H2]. auto.
      * intros [[H1|H1] H2]; [subst; contradiction | auto].
    + apply seen_before_not_In in E. simpl. rewrite IH. simpl. split.
      * intros [H|[H1 H2]]; [subst; auto | split; auto].
      * intros [[H1|H1] H2]; [auto|].
        destruct (option_string_eqb (Claim_No r) k) eqn:Ek.
        -- apply option_string_eqb_eq in Ek. auto.
        -- apply option_string_eqb_neq in Ek. right. split; [assumption|].
           intros [H|H]; contradiction.
Qed.

Lemma drop_from_NoDup seen rows :
  NoDup (map Claim_No (drop_from seen rows)).
Proof.
  revert seen. induction rows as [|r rs IH]; intros seen; simpl.
  - constructor.
  - destruct (seen_before (Claim_No r) seen); [apply IH|].
    simpl. constructor; [|apply IH].
    rewrite drop_from_keys. intros [_ H]. apply H. now left.
Qed.

Lemma drop_from_length seen rows :
  (List.length (drop_from seen rows) <= List.length rows)%nat.
Proof.
  revert seen. induction rows as [|r rs IH]; intros seen; simpl.
  - constructor.
  - destruct (seen_before (Claim_No r) seen); simpl.
    + specialize (IH seen). lia.
    + specialize (IH (Claim_No r :: seen)). lia.
Qed.

Lemma drop_from_first seen rows r :
  In r (drop_from seen rows) -> first_with (Claim_No r) rows = Some r.
Proof.
  unfold first_with. revert seen.
  induction rows as [|x rs IH]; intros seen; simpl; [tauto|].
  destruct (seen_before (Claim_No x) seen) eqn:E.
  - intros Hin.
    assert (Hk : In (Claim_No r) (map Claim_No (drop_from seen rs)))
      by (apply in_map; assumption).
    apply drop_from_keys in Hk. destruct Hk as [_ Hk].
    apply seen_before_In in E.
    destruct (option_string_eqb (Claim_No x) (Claim_No r)) eqn:Ex.
    + apply option_string_eqb_eq in Ex. rewrite Ex in E. contradiction.
    + eapply IH; eassumption.
  - simpl. intros [->|Hin].
    + now rewrite option_string_eqb_refl.
    + assert (Hk : In (Claim_No r)
                      (map Claim_No (drop_from (Claim_No x :: seen) rs)))
        by (apply in_map; assumption).
      apply drop_from_keys in Hk. destruct Hk as [_ Hk].
      destruct (option_string_eqb (Claim_No x) (Claim_No r)) eqn:Ex.
      * apply option_string_eqb_eq in Ex. exfalso. apply Hk. now left.
      * eapply IH; eassumption.
Qed.


(** C3.  For every claim-detail batch the Deduplicator keeps one row per
    distinct claim number: the claim numbers of the output are exactly
    those of the input, no two output rows share one, the output has no
    more rows than the input, and every output row is the first input row
    that carries its claim number, taken as it is (nothing is summed
    across the lines of a claim). *)
Theorem drop_duplicates_one_row_per_claim (rows : list ClaimLine) :
  let out := drop_duplicates rows in
  (forall k, In k (map Claim_No out) <-> In k (map Claim_No rows)) /\
  NoDup (map Claim_No out) /\
  (List.length out <= List.length rows)%nat /\
  (forall r, In r out -> first_with (Claim_No r) rows = Some r).
Proof.
  unfold drop_duplicates. cbv zeta. repeat split.
  - intros H. now apply drop_from_keys in H.
  - intros H. apply drop_from_keys. split; [assumption | intros []].
  - apply drop_from_NoDup.
  - apply drop_from_length.
  - intros r. apply drop_from_first.
Qed.

(** Three lines of claim "A1" and one of "B2" leave two rows. *)
Example drop_duplicates_A1_B2 :
  drop_duplicates
    [Samples.cpt_line "A1" (10#1); Samples.cpt_line "A1" (20#1);
     Samples.cpt_line "B2" (5#1); Samples.cpt_line "A1" (30#1)]
  = [Samples.cpt_line "A1" (10#1); Samples.cpt_line "B2" (5#1)].
Proof. reflexivity. Qed.

End DedupFacts.

(* ------------------------------------------------------------------ *)
(** ** Aging buckets                                                    *)
(* ------------------------------------------------------------------ *)

Module AgingFacts.

Import Aging.

(** What [pd.cut] gives on every number of days. *)
Lemma AgingBucket_cases (x : Z) :
  AgingBucket (Some x) =
    if x <=? -1 then None
    else if x <=? 30 then Some B0_30
    else if x <=? 60 then Some B31_60
    else if x <=? 90 then Some B61_90
    else if x <=? 120 then Some B91_120
    else Some BAbove120.
Proof.
  unfold AgingBucket, fillna, bins, labels, cut, lt_edge, le_edge.
  repeat match goal with
         | |- context [?a <? ?b] => destruct (Z.ltb_spec a b)
         | |- context [?a <=? ?b] => destruct (Z.leb_spec a b)
         end; simpl; try reflexivity; lia.
Qed.

(** A service date after today ages a negative number of days, which sits
    in no interval of [bins]: the row gets no bucket. *)
Lemma AgingBucket_negative (x : Z) : x < 0 -> AgingBucket (Some x) = None.
Proof.
  intros H. rewrite AgingBucket_cases.
  destruct (Z.leb_spec x (-1)); [reflexivity | lia].
Qed.

(** C1, as stated, fails: a claim whose service date is the day after
    today has AgingDays = -1 and is assigned none of the five buckets. *)
Lemma aging_bucket_not_total :
  AgingDays (mkDate 2026 11 3) (Some (mkDate 2026 11 4)) = Some (-1) /\
  AgingBucket (Some (-1)) = None /\
  ~ (forall a : option Z, exists b, AgingBucket a = Some b).
Proof.
  split; [reflexivity|]. split; [reflexivity|].
  intros H. destruct (H (Some (-1))) as [b Hb]. discriminate Hb.
Qed.

(** C1, amended.  Every AgingDays value that is missing or not negative is
    assigned exactly one of the five buckets, the one whose range holds it;
    a missing value goes, through the sentinel, to "Above 120 Days"; the
    boundary values 30, 60, 90 and 120 are in the lower bucket
    (30 is "0 - 30 Days", 31 is "31 - 60 Days"). *)
Theorem aging_bucket_total_on_nonnegative (a : option Z)
  (Hnonneg : forall x, a = Some x -> 0 <= x) :
  (exists b, AgingBucket a = Some b /\ In b labels /\
             match a with
             | Some x => in_range b x /\ (forall b', in_range b' x -> b' = b)
             | None => b = BAbove120
             end) /\
  option_map label (AgingBucket (Some 30)) = Some "0 - 30 Days" /\
  option_map label (AgingBucket (Some 31)) = Some "31 - 60 Days" /\
  AgingBucket (Some 60) = Some B31_60 /\
  AgingBucket (Some 90) = Some B61_90 /\
  AgingBucket (Some 120) = Some B91_120 /\
  option_map label (AgingBucket None) = Some "Above 120 Days".
Proof.
  split; [|repeat split; reflexivity].
  destruct a as [x|].
  - specialize (Hnonneg x eq_refl). rewrite AgingBucket_cases.
    repeat match goal with
           | |- context [?a <=? ?b] => destruct (Z.leb_spec a b)
           end; try lia;
      eexists; (split; [reflexivity|]); (split; [simpl; tauto|]);
      (split; [simpl; lia|]); intros [] Hb; simpl in Hb;
      try reflexivity; lia.
  - exists BAbove120. split; [reflexivity|]. split; [simpl; tauto|reflexivity].
Qed.

Lemma aging_bucket_total_on_nonnegative_witness :
  (forall x, Some 45 = Some x -> 0 <= x) /\
  exists b, AgingBucket (Some 45) = Some b /\ in_range b 45.
Proof.
  assert (H : forall x, Some 45 = Some x -> 0 <= x)
    by (intros x E; injection E as <-; lia).
  split; [exact H|].
  destruct (aging_bucket_total_on_nonnegative (Some 45) H)
    as [(b & Hb & _ & Hr & _) _].
  exists b. split; assumption.
Defined.

End AgingFacts.

(* ------------------------------------------------------------------ *)
(** ** Sorting and sums                                                 *)
(* ------------------------------------------------------------------ *)

Module FrameFacts.

Import Frame.

Section SortValues.
Context {R : Type} (geb : R -> R -> bool).

Lemma insert_desc_perm r l : Permutation (insert_desc geb r l) (r :: l).
Proof.
  induction l as [|x xs IH]; simpl; [reflexivity|].
  destruct (geb r x); [reflexivity|].
  rewrite IH. apply perm_swap.
Qed.

Lemma sort_values_desc_perm l : Permutation (sort_values_desc geb l) l.
Proof.
  induction l as [|x xs IH]; simpl; [reflexivity|].
  rewrite insert_desc_perm. now constructor.
Qed.

Hypothesis geb_total : forall a b, geb a b = true \/ geb b a = true.

Lemma insert_desc_hd r l x :
  HdRel (not_below geb) x l -> not_below geb x r ->
  HdRel (not_below geb) x (insert_desc geb r l).
Proof.
  intros Hl Hr. destruct l as [|y ys]; simpl.
  - now constructor.
  - destruct (geb r y); constructor; [assumption|].
    now inversion Hl.
Qed.

Lemma insert_desc_sorted r l :
  Sorted (not_below geb) l -> Sorted (not_below geb) (insert_desc geb r l).
Proof.
  induction 1 as [|x xs Hs IH Hhd]; simpl.
  - repeat constructor.
  - destruct (geb r x) eqn:E.
    + constructor; [now constructor|]. now constructor.
    + constructor; [assumption|].
      apply insert_desc_hd; [assumption|].
      destruct (geb_total r x) as [H|H]; [congruence | exact H].
Qed.

Lemma sort_values_desc_sorted l :
  Sorted (not_below geb) (sort_values_desc geb l).
Proof.
  induction l as [|x xs IH]; simpl; [constructor|].
  now apply insert_desc_sorted.
Qed.
End SortValues.

Lemma StronglySorted_map {A B} (f : A -> B) (R : B -> B -> Prop) l :
  StronglySorted (fun a b => R (f a) (f b)) l -> StronglySorted R (map f l).
Proof.
  induction 1 as [|x xs Hs IH Hall]; simpl; constructor; [assumption|].
  rewrite Forall_map. exact Hall.
Qed.

(** A list sorted by a total, transitive [>=] on a key has every earlier
    key at least as large as every later one. *)
Lemma sort_values_desc_by_key {A B} (key : A -> B) (geb : B -> B -> bool)
  (R : B -> B -> Prop) (l : list A) :
  (forall a b, geb a b = true <-> R a b) ->
  (forall a b, R a b \/ R b a) ->
  (forall a b c, R a b -> R b c -> R a c) ->
  StronglySorted R
    (map key (sort_values_desc (fun a b => geb (key a) (key b)) l)).
Proof.
  intros Hiff Htot Htrans. apply StronglySorted_map.
  apply Sorted_StronglySorted.
  - intros a b c Hab Hbc. eapply Htrans; eassumption.
  - eapply Sorted_ind with
      (P := fun l => Sorted (fun a b => R (key a) (key b)) l);
      [constructor | | apply (sort_values_desc_sorted
                                (fun a b => geb (key a) (key b)))].
    + intros a l0 _ IH Hhd. constructor; [assumption|].
      destruct Hhd; constructor. now apply Hiff.
    + intros a b. destruct (Htot (key a) (key b)); [left|right];
        now apply Hiff.
Qed.

Lemma sumZ_from acc l : fold_left Z.add l acc = acc + sumZ l.
Proof.
  unfold sumZ. revert acc. induction l as [|x xs IH]; intros acc; simpl.
  - lia.
  - rewrite (IH (acc + x)), (IH x). lia.
Qed.

Lemma sumZ_cons x l : sumZ (x :: l) = x + sumZ l.
Proof. unfold sumZ at 1. simpl. apply sumZ_from. Qed.

Lemma sumZ_app l1 l2 : sumZ (l1 ++ l2) = sumZ l1 + sumZ l2.
Proof.
  induction l1 as [|x xs IH]; simpl; [reflexivity|].
  rewrite !sumZ_cons, IH. lia.
Qed.

Lemma sumZ_perm l1 l2 : Permutation l1 l2 -> sumZ l1 = sumZ l2.
Proof.
  induction 1; rewrite ?sumZ_cons; lia.
Qed.

Lemma sumQ_from acc l : (fold_left Qplus l acc == acc + sumQ l)%Q.
Proof.
  unfold sumQ. revert acc. induction l as [|x xs IH]; intros acc; simpl.
  - ring.
  - rewrite (IH (acc + x)%Q), (IH (0 + x)%Q). ring.
Qed.

Lemma sumQ_cons x l : (sumQ (x :: l) == x + sumQ l)%Q.
Proof. unfold sumQ at 1. simpl. rewrite sumQ_from. ring. Qed.

Lemma sumQ_app l1 l2 : (sumQ (l1 ++ l2) == sumQ l1 + sumQ l2)%Q.
Proof.
  induction l1 as [|x xs IH]; simpl.
  - unfold sumQ at 2. simpl. ring.
  - rewrite !sumQ_cons, IH. ring.
Qed.

Lemma sumQ_perm l1 l2 : Permutation l1 l2 -> (sumQ l1 == sumQ l2)%Q.
Proof.
  induction 1; rewrite ?sumQ_cons.
  - reflexivity.
  - now rewrite IHPermutation.
  - ring.
  - now rewrite IHPermutation1.
Qed.

End FrameFacts.

(* ------------------------------------------------------------------ *)
(** ** Rounding                                                         *)
(* ------------------------------------------------------------------ *)

Module RoundFacts.

Import Round.
Local Open Scope Q_scope.

(** [rint] is within one half of its argument, and lands on an even
    integer when it is exactly one half away. *)
Lemma rint_nearest (x : Q) :
  Qabs (x - inject_Z (rint x)) <= 1#2 /\
  (Qabs (x - inject_Z (rint x)) == 1#2 -> Z.even (rint x) = true).
Proof.
  unfold rint.
  pose proof (Qfloor_le x) as Hlo. pose proof (Qlt_floor x) as Hhi.
  rewrite inject_Z_plus in Hhi. change (inject_Z 1) with 1 in Hhi.
  set (f := Qfloor x) in *.
  destruct (Qcompare_spec (x - inject_Z f) (1#2)) as [E|E|E].
  - destruct (Z.even f) eqn:Ev.
    + split; [|intros _; exact Ev].
      apply Qabs_Qle_condition. split; lra.
    + rewrite inject_Z_plus. change (inject_Z 1) with 1. split.
      * apply Qabs_Qle_condition. split; lra.
      * intros _. rewrite Z.even_add, Ev. reflexivity.
  - split.
    + apply Qabs_Qle_condition. split; lra.
    + intros H. rewrite Qabs_pos in H by lra. lra.
  - rewrite inject_Z_plus. change (inject_Z 1) with 1. split.
    + apply Qabs_Qle_condition. split; lra.
    + intros H. rewrite Qabs_neg in H by lra. lra.
Qed.


(** [round2] gives a number of hundredths, within half a hundredth. *)
Lemma round2_nearest (x : Q) :
  Qabs (x - round2 x) <= 1#200 /\
  (exists n : Z, round2 x = Qmake n 100).
Proof.
  split; [|eexists; reflexivity].
  destruct (rint_nearest (x * 100)) as [H _].
  assert (E : round2 x == inject_Z (rint (x * 100)) / 100).
  { unfold round2, Qeq, Qdiv, Qinv, Qmult, inject_Z. simpl. lia. }
  rewrite E. apply Qabs_Qle_condition in H. apply Qabs_Qle_condition.
  destruct H as [H1 H2].
  set (n := inject_Z (rint (x * 100))) in *.
  split.
  - apply Qmult_le_r with (z := 100); [reflexivity|]. field_simplify. lra.
  - apply Qmult_le_r with (z := 100); [reflexivity|]. field_simplify. lra.
Qed.

End RoundFacts.

(* ------------------------------------------------------------------ *)
(** ** The grand-total rows of the Aggregator                           *)
(* ------------------------------------------------------------------ *)

Module AggregatorFacts.

Import Frame.

Lemma filter_nil_Forall {A} (f : A -> bool) l :
  filter f l = [] -> Forall (fun x => f x = false) l.
Proof.
  induction l as [|x xs IH]; simpl; [constructor|].
  destruct (f x) eqn:E; [discriminate|]. intros H. constructor; auto.
Qed.

Lemma map_pf_row (total : Z) (l : list Visits.pt_row) :
  map Visits.pf_row
      (map (fun r => Visits.mkPtFullRow r
                       (Visits.pct_share (Visits.pt_Grand_Total r) total)) l)
  = l.
Proof. rewrite map_map. simpl. apply map_id. Qed.

(** When [pt_full] is produced, its rows are the rows of [pt] followed by
    the total row, the one row labelled 'Grand Total', whose 'Grand Total'
    cell is the denominator of the share. *)
Lemma pt_full_inv hcd rows months full :
  Visits.pt_full hcd rows = Some (months, full) ->
  forall t, t = Visits.pt hcd rows ->
  months = Visits.pt_months t /\
  full = map (fun r => Visits.mkPtFullRow r
                (Visits.pct_share (Visits.pt_Grand_Total r)
                   (Visits.pt_Grand_Total (Visits.total_row t))))
             (Visits.concat_total t) /\
  Forall (fun r => Visits.pt_index r <> "Grand Total") (Visits.pt_rows t) /\
  Visits.total_claims (Visits.concat_total t)
  = Some (Visits.pt_Grand_Total (Visits.total_row t)).
Proof.
  unfold Visits.pt_full. intros H t Ht. rewrite <- Ht in H.
  destruct (Visits.total_claims (Visits.concat_total t)) as [total|] eqn:E;
    [|discriminate].
  injection H as <- <-.
  unfold Visits.total_claims, Visits.concat_total in E.
  rewrite filter_app in E. simpl in E.
  destruct (filter _ (Visits.pt_rows t)) as [|x [|y l]] eqn:F; simpl in E;
    try discriminate.
  injection E as <-. split; [reflexivity|]. split; [reflexivity|].
  split; [|reflexivity].
  apply filter_nil_Forall in F. eapply Forall_impl; [|exact F].
  simpl. intros r Hr Heq. rewrite Heq in Hr. discriminate.
Qed.

Lemma total_row_cell (t : Visits.pt_table) (j : nat) :
  (j < List.length (Visits.pt_months t))%nat ->
  nth j (Visits.pt_cells (Visits.total_row t)) 0 =
  sumZ (map (fun r => nth j (Visits.pt_cells r) 0) (Visits.pt_rows t)).
Proof.
  intros Hj. unfold Visits.total_row. simpl.
  rewrite nth_indep with (d' := Visits.column_sum (Visits.pt_rows t) O)
    by (rewrite length_map, length_seq; exact Hj).
  rewrite map_nth, seq_nth by exact Hj. reflexivity.
Qed.

Lemma strftime_bY_not_total d : Monthly.strftime_bY d <> "Grand Total".
Proof.
  unfold Monthly.strftime_bY, Monthly.month_abbr.
  destruct (Z.to_nat (month d - 1)) as [|n]; [simpl; discriminate|].
  do 11 (destruct n as [|n]; [simpl; discriminate|]).
  destruct n; simpl; discriminate.
Qed.

Lemma monthly_labels rows :
  Forall (fun r => Monthly.TRANSACTION_MONTH r <> Some "Grand Total")
         (Monthly.monthly_summary rows).
Proof.
  unfold Monthly.monthly_summary. apply Forall_map, Forall_forall.
  intros k _. simpl. unfold Monthly.transaction_month.
  destruct (group Monthly.Month k rows) as [|t ?]; [discriminate|].
  destruct (Monthly.t_Date t); simpl; [|discriminate].
  intros [= H]. now apply strftime_bY_not_total in H.
Qed.

(** C2.  In each of the three Aggregator tables (AR-aging summary,
    provider-visit cross-tab, monthly transaction summary) the rows are
    the data rows followed by one appended row labelled "Grand Total";
    no data row carries that label, and in every summed column the
    appended row holds the sum of the column over the data rows. *)
Theorem grand_total_row_is_column_sum
  (today : date) (b : Prep.batch371)
  (hcd : bool) (rows : list ClaimLine)
  (months : list string) (full : list Visits.pt_full_row)
  (b123 : Monthly.batch123) (ms : list Monthly.month_row)
  (Hpt : Visits.pt_full hcd rows = Some (months, full))
  (Hms : Monthly.monthly_summary_full b123 = Some ms) :
  (exists data tot,
      ARAging.aging_summary_full today b = data ++ [tot] /\
      ARAging.ag_AgingBucket tot = "Grand Total" /\
      Forall (fun r => ARAging.ag_AgingBucket r <> "Grand Total") data /\
      ARAging.ag_Charges tot = sumQ (map ARAging.ag_Charges data) /\
      ARAging.ag_AllowedFee tot = sumQ (map ARAging.ag_AllowedFee data) /\
      ARAging.ag_ExpectedPayments tot
        = sumQ (map ARAging.ag_ExpectedPayments data) /\
      ARAging.ag_PaymentsCollected tot
        = sumQ (map ARAging.ag_PaymentsCollected data) /\
      ARAging.ag_Pending tot = sumQ (map ARAging.ag_Pending data)) /\
  (exists data tot,
      map Visits.pf_row full = data ++ [tot] /\
      Visits.pt_index tot = "Grand Total" /\
      Forall (fun r => Visits.pt_index r <> "Grand Total") data /\
      List.length (Visits.pt_cells tot) = List.length months /\
      (forall j, (j < List.length months)%nat ->
         nth j (Visits.pt_cells tot) 0
         = sumZ (map (fun r => nth j (Visits.pt_cells r) 0) data)) /\
      Visits.pt_Grand_Total tot = sumZ (map Visits.pt_Grand_Total data)) /\
  (exists data tot,
      ms = data ++ [tot] /\
      Monthly.TRANSACTION_MONTH tot = Some "Grand Total" /\
      Forall (fun r => Monthly.TRANSACTION_MONTH r <> Some "Grand Total") data /\
      Monthly.BILLED_CHARGES tot = sumQ (map Monthly.BILLED_CHARGES data) /\
      Monthly.PATIENT_PAYMENTS tot = sumQ (map Monthly.PATIENT_PAYMENTS data) /\
      Monthly.PAYER_PAYMENTS tot = sumQ (map Monthly.PAYER_PAYMENTS data) /\
      Monthly.CONTRACTUAL_ADJUSTMENTS tot
        = sumQ (map Monthly.CONTRACTUAL_ADJUSTMENTS data)).
Proof.
  split; [|split].
  - exists (ARAging.aging_summary today (ARAging.ar_filter b)),
           (ARAging.total_row (ARAging.aging_summary today (ARAging.ar_filter b))).
    repeat split.
    unfold ARAging.aging_summary, Aging.labels.
    repeat constructor; simpl; discriminate.
  - set (t := Visits.pt hcd rows).
    destruct (pt_full_inv _ _ _ _ Hpt t eq_refl) as (-> & -> & Hlab & _).
    exists (Visits.pt_rows t), (Visits.total_row t).
    split; [apply map_pf_row|]. split; [reflexivity|].
    split; [exact Hlab|]. split; [|split].
    + simpl. now rewrite length_map, length_seq.
    + apply total_row_cell.
    + reflexivity.
  - unfold Monthly.monthly_summary_full in Hms.
    destruct (Monthly.date123_col b123); [|discriminate].
    injection Hms as <-.
    exists (Monthly.monthly_summary (Monthly.rows123 b123)),
           (Monthly.total_row (Monthly.monthly_summary (Monthly.rows123 b123))).
    repeat split. apply monthly_labels.
Qed.

Lemma grand_total_row_is_column_sum_witness :
  exists months full ms,
    Visits.pt_full true (Visits.pv Samples.eight_claims) = Some (months, full) /\
    Monthly.monthly_summary_full Samples.transactions = Some ms /\
    (exists data tot,
        map Visits.pf_row full = data ++ [tot] /\
        Visits.pt_Grand_Total tot = sumZ (map Visits.pt_Grand_Total data)) /\
    (exists data tot,
        ms = data ++ [tot] /\
        Monthly.BILLED_CHARGES tot = sumQ (map Monthly.BILLED_CHARGES data)).
Proof.
  assert (Hpt : Visits.pt_full true (Visits.pv Samples.eight_claims)
          = Some (Visits.pt_months (Visits.pt true (Visits.pv Samples.eight_claims)),
                  map (fun r => Visits.mkPtFullRow r
                                  (Visits.pct_share (Visits.pt_Grand_Total r) 8))
                      (Visits.concat_total
                         (Visits.pt true (Visits.pv Samples.eight_claims)))))
    by (vm_compute; reflexivity).
  assert (Hms : Monthly.monthly_summary_full Samples.transactions
          = Some (Monthly.monthly_summary (Monthly.rows123 Samples.transactions)
                  ++ [Monthly.total_row
                        (Monthly.monthly_summary
                           (Monthly.rows123 Samples.transactions))]))
    by reflexivity.
  destruct (grand_total_row_is_column_sum (mkDate 2025 3 1)
              Samples.eight_claims _ _ _ _ _ _ Hpt Hms)
    as (_ & (d1 & t1 & H1 & _ & _ & _ & _ & H1') &
             (d2 & t2 & H2 & _ & _ & H2' & _)).
  eexists _, _, _. split; [exact Hpt|]. split; [exact Hms|]. split.
  - exists d1, t1. split; assumption.
  - exists d2, t2. split; assumption.
Defined.

End AggregatorFacts.

(* ------------------------------------------------------------------ *)
(** ** The Minor-Category Folder                                        *)
(* ------------------------------------------------------------------ *)

Module FoldFacts.

Import Frame FrameFacts.

Lemma sumZ_split {A} (f : A -> Z) (p q : A -> bool) (l : list A) :
  (forall x, q x = negb (p x)) ->
  sumZ (map f l) = sumZ (map f (filter p l)) + sumZ (map f (filter q l)).
Proof.
  intros Hq. induction l as [|x xs IH]; simpl; [reflexivity|].
  rewrite Hq. destruct (p x); simpl; rewrite !sumZ_cons, IH; lia.
Qed.

Lemma sumZ_filter_nil {A} (f : A -> Z) (l : list A) :
  l = [] -> sumZ (map f l) = 0.
Proof. now intros ->. Qed.

Lemma pairs_of_add_Pct (tbl : list (string * Z)) :
  map (fun r => (PayerMix.mix_Primary_Payer r, PayerMix.mix_Claims r))
      (PayerMix.add_Pct tbl) = tbl.
Proof.
  unfold PayerMix.add_Pct. rewrite map_map. simpl.
  rewrite <- (map_id tbl) at 2. apply map_ext. now intros [p c].
Qed.

Lemma claims_of_add_Pct (tbl : list (string * Z)) :
  map PayerMix.mix_Claims (PayerMix.add_Pct tbl) = map PayerMix.Claims tbl.
Proof. unfold PayerMix.add_Pct. now rewrite map_map. Qed.

Lemma fold_minor_perm counts :
  Permutation (PayerMix.fold_minor counts) (PayerMix.folded_counts counts).
Proof.
  unfold PayerMix.fold_minor, PayerMix.folded_counts. rewrite sort_values_desc_perm.
  assert (E : filter (fun r => PayerMix.Claims r >=? PayerMix.minor_threshold)
                     counts
              = filter (fun r => negb (snd r <? 10)) counts).
  { apply filter_ext. intros r. unfold PayerMix.Claims, PayerMix.minor_threshold.
    rewrite Z.geb_leb, Z.ltb_antisym, negb_involutive. reflexivity. }
  rewrite E. apply Permutation_refl.
Qed.

Lemma folded_counts_sum counts :
  sumZ (map snd (PayerMix.folded_counts counts)) = sumZ (map snd counts).
Proof.
  unfold PayerMix.folded_counts.
  rewrite (sumZ_split snd (fun r => negb (snd r <? 10))
                      (fun r => snd r <? 10) counts)
    by (intros x; now rewrite negb_involutive).
  cbv zeta.
  destruct (filter (fun r => snd r <? 10) counts) as [|m ms] eqn:E.
  - change (sumZ (map snd (@nil (string * Z)))) with 0. lia.
  - rewrite map_app, sumZ_app.
    change (map snd [("Other minor payers", sumZ (map snd (m :: ms)))])
      with [sumZ (map snd (m :: ms))].
    rewrite (sumZ_cons _ []). change (sumZ []) with 0. lia.
Qed.

(** C4.  The count-threshold folding of the payer-mix table keeps the
    categories with at least 10 unique claims and replaces all those with
    fewer by one "Other minor payers" row holding the sum of their counts;
    it adds no such row when no category is below 10; the rows come out in
    descending order of count; the counts still add up to the same total;
    every row's Pct is count/total*100 rounded to two decimals (a number
    of hundredths within half a hundredth of the exact share).  Counts
    X:50, Y:8, Z:3 give the two rows X:50 and "Other minor payers":11, X
    first. *)
Theorem payer_mix_count_threshold_folding (counts : list (string * Z)) :
  let minor := filter (fun r => snd r <? 10) counts in
  let major := filter (fun r => negb (snd r <? 10)) counts in
  let out := PayerMix.payer_mix_of_counts counts in
  let total := sumZ (map PayerMix.mix_Claims out) in
  Permutation
    (map (fun r => (PayerMix.mix_Primary_Payer r, PayerMix.mix_Claims r)) out)
    (match minor with
     | [] => major
     | _ => major ++ [("Other minor payers", sumZ (map snd minor))]
     end) /\
  StronglySorted Z.ge (map PayerMix.mix_Claims out) /\
  total = sumZ (map snd counts) /\
  (forall r, In r out ->
     let share := (inject_Z (PayerMix.mix_Claims r) / inject_Z total * 100)%Q in
     if total =? 0 then PayerMix.mix_Pct r = None
     else exists (p : Q) (n : Z),
         PayerMix.mix_Pct r = Some p /\ p = Qmake n 100 /\
         (Qabs (share - p) <= 1#200)%Q) /\
  PayerMix.payer_mix_of_counts [("X", 50); ("Y", 8); ("Z", 3)]
  = [PayerMix.mkMixRow "X" 50 (Some (8197#100));
     PayerMix.mkMixRow "Other minor payers" 11 (Some (1803#100))].
Proof.
  cbv zeta. unfold PayerMix.payer_mix_of_counts.
  rewrite pairs_of_add_Pct, claims_of_add_Pct.
  split; [apply fold_minor_perm|]. split; [|split; [|split]].
  - unfold PayerMix.fold_minor.
    apply (sort_values_desc_by_key PayerMix.Claims Z.geb Z.ge).
    + intros a b. rewrite Z.geb_le. lia.
    + intros a b. lia.
    + intros a b c. lia.
  - change PayerMix.Claims with (@snd string Z).
    rewrite (sumZ_perm _ _ (Permutation_map snd (fold_minor_perm counts))).
    apply folded_counts_sum.
  - intros r Hr. unfold PayerMix.add_Pct in Hr. apply in_map_iff in Hr.
    destruct Hr as (x & <- & _). simpl. unfold PayerMix.Pct.
    destruct (sumZ (map PayerMix.Claims (PayerMix.fold_minor counts)) =? 0);
      [reflexivity|].
    destruct (RoundFacts.round2_nearest
                (inject_Z (PayerMix.Claims x)
                 / inject_Z (sumZ (map PayerMix.Claims
                                       (PayerMix.fold_minor counts))) * 100)%Q)
      as [Hn [n Hr]].
    eexists _, n. split; [reflexivity|]. split; [exact Hr | exact Hn].
  - vm_compute. reflexivity.
Qed.

(** *** The quantile-threshold folding *)

Lemma Qlt_bool_iff (x y : Q) : Payments.Qlt_bool x y = true <-> (x < y)%Q.
Proof. unfold Payments.Qlt_bool, Qlt. apply Z.ltb_lt. Qed.

Lemma Qlt_bool_negb_le (x y : Q) :
  Payments.Qlt_bool x y = negb (Qle_bool y x).
Proof.
  unfold Payments.Qlt_bool, Qle_bool. now rewrite Z.ltb_antisym.
Qed.

Lemma minor_threshold_amount_pos tbl :
  (0 < Payments.minor_threshold_amount tbl)%Q.
Proof.
  unfold Payments.minor_threshold_amount.
  destruct (Payments.quantile _ _) as [t|]; [|reflexivity].
  destruct (Qle_bool t 0) eqn:E; [reflexivity|].
  apply Qnot_le_lt. intros H. apply Qle_bool_iff in H. congruence.
Qed.

(** *** The quantile: where it lies among the values *)











End FoldFacts.

(* ------------------------------------------------------------------ *)
(** ** The provider-visit cross-tab: shares and month labels            *)
(* ------------------------------------------------------------------ *)

Module VisitsFacts.

Import Frame Visits.




(** *** Month labels *)

Lemma filter_filter_implied {A} (f g : A -> bool) (l : list A) :
  (forall x, f x = true -> g x = true) ->
  filter f (filter g l) = filter f l.
Proof.
  intros H. induction l as [|x xs IH]; simpl; [reflexivity|].
  destruct (g x) eqn:G; simpl.
  - destruct (f x); now rewrite IH.
  - destruct (f x) eqn:F; [|exact IH].
    apply H in F. congruence.
Qed.

Lemma grouped_dated rows :
  grouped true (filter has_claim_date rows) = grouped true rows.
Proof.
  apply filter_filter_implied. intros r.
  unfold in_groupby, Month, has_claim_date.
  destruct (Rendering_Provider r); [|discriminate].
  destruct (Claim_Date r); [reflexivity | discriminate].
Qed.

Lemma digit_not_U n : Str.digit n <> "U"%char.
Proof.
  unfold Str.digit. intros H.
  apply (f_equal N_of_ascii) in H.
  pose proof (Z.mod_pos_bound n 10 ltac:(lia)) as Hb.
  rewrite N_ascii_embedding in H by lia.
  change (N_of_ascii "U") with 85%N in H. lia.
Qed.

Lemma strftime_Ym_not_Unknown d : strftime_Ym d <> "Unknown".
Proof.
  unfold strftime_Ym, Str.pad4. simpl. intros H.
  injection H as H _. now apply digit_not_U in H.
Qed.

Lemma group_keys_constant (k : string) (ks : list (option string)) :
  Forall (fun x => x = Some k) ks ->
  group_keys ks = [] \/ group_keys ks = [k].
Proof.
  induction 1 as [|x xs -> _ IH]; simpl; [now left|].
  right. destruct IH as [-> | ->]; simpl; [reflexivity|].
  now rewrite String.eqb_refl.
Qed.

(** C10.  When the claim date column exists, a row whose claim date did
    not parse has a missing month label and is left out of the group-by:
    the cross-tab, with its month columns and grand totals, is the one of
    the batch without such rows.  A dated row is never labelled
    'Unknown'.  Only when the column is absent do all rows get the label
    'Unknown', which is then the only month column. *)
Theorem undated_rows_are_excluded (rows : list ClaimLine) :
  (forall r, Claim_Date r = None -> Month true r = None) /\
  (forall r, Claim_Date r = None -> ~ In r (grouped true rows)) /\
  pt true rows = pt true (filter has_claim_date rows) /\
  pt_full true rows = pt_full true (filter has_claim_date rows) /\
  (forall r m, Month true r = Some m -> m <> "Unknown") /\
  (forall r, Month false r = Some "Unknown") /\
  (pt_months (pt false rows) = [] \/ pt_months (pt false rows) = ["Unknown"]).
Proof.
  assert (Hpt : pt true rows = pt true (filter has_claim_date rows)).
  { unfold pt. now rewrite grouped_dated. }
  split; [|split; [|split; [|split; [|split; [|split]]]]].
  - intros r H. unfold Month. now rewrite H.
  - intros r H Hin. apply filter_In in Hin. destruct Hin as [_ Hin].
    unfold in_groupby, Month in Hin. rewrite H in Hin.
    destruct (Rendering_Provider r); discriminate.
  - exact Hpt.
  - unfold pt_full. now rewrite Hpt.
  - intros r m. unfold Month. destruct (Claim_Date r); simpl; [|discriminate].
    intros [= <-]. apply strftime_Ym_not_Unknown.
  - reflexivity.
  - unfold pt. simpl. apply group_keys_constant.
    apply Forall_map, Forall_forall. reflexivity.
Qed.

End VisitsFacts.

(* ------------------------------------------------------------------ *)
(** ** The Remittance Normalizer                                        *)
(* ------------------------------------------------------------------ *)

Module ERAFacts.

Import ERA.

Section Normalizer.
Context {conv : Conversions}.

Lemma select_columns cols f era :
  select cols f = Ok era -> columns era = cols.
Proof.
  unfold select.
  destruct (filter _ cols); [|discriminate]. now intros [= <-].
Qed.

Lemma select_missing cols f :
  filter (fun c => negb (Str.mem c (columns f))) cols <> [] ->
  select cols f
  = Raise (KeyError (filter (fun c => negb (Str.mem c (columns f))) cols)).
Proof.
  unfold select. destruct (filter _ cols); [congruence | reflexivity].
Qed.

Lemma fix_types_columns era : columns (fix_types era) = columns era.
Proof.
  unfold fix_types. cbn [update columns].
  destruct (Str.mem "DATE" (columns era)); reflexivity.
Qed.

Lemma era_full_columns df out :
  era_full df = Ok out -> columns out = canonical_columns.
Proof.
  unfold era_full. destruct (select needed_cols df) as [era|e] eqn:E;
    [|discriminate].
  intros [= <-]. apply select_columns in E.
  unfold with_total. cbn [columns]. rewrite fix_types_columns.
  unfold rename. cbn [columns]. rewrite E. reflexivity.
Qed.

(** C9, amended.  The normalizer does not run on its own output: the
    output carries the canonical columns PAYER, METHOD, DATE, CHECK/EFT #
    and AMOUNT in place of the five source columns, so normalizing it
    again raises a KeyError naming all five. *)
Theorem era_full_rejects_its_output (df out : frame)
  (H : era_full df = Ok out) :
  columns out = canonical_columns /\
  era_full out = Raise (KeyError needed_cols).
Proof.
  pose proof (era_full_columns _ _ H) as Hc. split; [exact Hc|].
  unfold era_full. rewrite select_missing; rewrite Hc.
  - reflexivity.
  - discriminate.
Qed.
End Normalizer.

(** C9, as stated, fails: the ledger of the sample sheet is produced, and
    normalizing that ledger again gives an error, not the ledger. *)
Lemma era_full_not_idempotent :
  exists out,
    era_full (conv := typed_cells) Samples.remittance = Ok out /\
    era_full (conv := typed_cells) out = Raise (KeyError needed_cols) /\
    era_full (conv := typed_cells) out <> Ok out.
Proof.
  eexists. split; [vm_compute; reflexivity|].
  split; [vm_compute; reflexivity|]. vm_compute. discriminate.
Qed.

Lemma era_full_rejects_its_output_witness :
  exists out,
    era_full (conv := typed_cells) Samples.remittance = Ok out /\
    columns out = canonical_columns /\
    era_full (conv := typed_cells) out = Raise (KeyError needed_cols).
Proof.
  eexists. split; [vm_compute; reflexivity|].
  apply (era_full_rejects_its_output (conv := typed_cells) Samples.remittance).
  vm_compute. reflexivity.
Defined.

End ERAFacts.

(* ------------------------------------------------------------------ *)
(** ** The run of the script around the ERA block                       *)
(* ------------------------------------------------------------------ *)

Module ScriptFacts.

Import Script.

Lemma existsb_shown_before_era (p : output -> bool) i df371 df123 months pt :
  (forall m t, p (Provider_Visits m t) = false) ->
  (forall t, p (Payer_Mix t) = false) ->
  (forall t, p (AR_Aging_Summary t) = false) ->
  (forall t, p (Monthly_Summary t) = false) ->
  (forall t, p (Payments_By_Payer t) = false) ->
  (forall t, p (Unposted t) = false) ->
  existsb p (shown_before_era i df371 df123 months pt) = false.
Proof.
  intros H1 H2 H3 H4 H5 H6. unfold shown_before_era.
  rewrite !existsb_app. simpl. rewrite H1, H2, H3, H5. simpl.
  destruct (Monthly.monthly_summary_full df123);
    destruct (Denials.unposted df123); simpl; rewrite ?H4, ?H6; reflexivity.
Qed.

Section Run.
Context {conv : ERA.Conversions}.

(** The run up to the ERA block. *)
Lemma kpi_modules_shown i df371 df123 months pt :
  Visits.pt_full (Prep.has_column df371 "Claim Date") (Visits.pv df371)
  = Some (months, pt) ->
  kpi_modules i df371 df123 []
  = ([Provider_Visits months pt;
      Payer_Mix (PayerMix.payer_mix df371);
      AR_Aging_Summary (ARAging.aging_summary_full (today i) df371)]
     ++ match Monthly.monthly_summary_full df123 with
        | Some t => [Monthly_Summary t]
        | None => []
        end
     ++ [Payments_By_Payer (Payments.payments_by_payer_final df371)],
     inl tt).
Proof.
  intros Hpt. unfold kpi_modules, bind, show, ret. rewrite Hpt. simpl.
  destruct (Monthly.monthly_summary_full df123); reflexivity.
Qed.

Lemma run_to_era_block i df371 df123 months pt :
  file_371 i = Some df371 ->
  file_123 i = Some df123 ->
  Visits.pt_full (Prep.has_column df371 "Claim Date") (Visits.pv df371)
  = Some (months, pt) ->
  run_script i =
  match file_era i with
  | None => (shown_before_era i df371 df123 months pt,
             Failed (NameError "df_era"))
  | Some df =>
      match ERA.era_full df with
      | Raise e => (shown_before_era i df371 df123 months pt, Failed e)
      | Ok era =>
          (shown_before_era i df371 df123 months pt
           ++ [ERA_Payments era]
           ++ match Denials.den_summary df371 with
              | [] => []
              | d => [Denials_Summary d]
              end
           ++ (if enable_export i
               then [KPI_Workbook ["Provider_Visits"; "ERA";
                                   "raw_371_filtered"; "raw_123"]]
               else []),
           Completed)
      end
  end.
Proof.
  intros H371 H123 Hpt. unfold run_script, script. rewrite H371, H123.
  unfold bind at 1. rewrite (kpi_modules_shown _ _ _ _ _ Hpt).
  unfold shown_before_era, unposted_era_denials, export, bind, show, ret,
    when, read_var, lift, finish, is_empty.
  destruct (file_era i) as [df|]; simpl.
  - destruct (ERA.era_full df) as [era|e]; simpl.
    + destruct (Monthly.monthly_summary_full df123);
        destruct (Denials.unposted df123);
        destruct (Denials.den_summary df371);
        destruct (enable_export i); simpl;
        rewrite <- ?app_assoc; reflexivity.
    + destruct (Monthly.monthly_summary_full df123);
        destruct (Denials.unposted df123); simpl;
        rewrite <- ?app_assoc; reflexivity.
  - destruct (Monthly.monthly_summary_full df123);
      destruct (Denials.unposted df123); simpl;
      rewrite <- ?app_assoc; reflexivity.
Qed.


(** C7, on the code: with no remittance upload, [df_era] is never
    assigned and the line that reads it raises a NameError.  The run
    ends there: the tables of sections 1 to 5 and the unposted rows have
    been produced, the denials summary and the export workbook are not. *)
Theorem absent_era_upload_raises_NameError
  (i : inputs) (df371 : Prep.batch371) (df123 : Monthly.batch123)
  (months : list string) (pt : list Visits.pt_full_row)
  (H371 : file_371 i = Some df371)
  (H123 : file_123 i = Some df123)
  (Hera : file_era i = None)
  (Hpt : Visits.pt_full (Prep.has_column df371 "Claim Date")
                        (Visits.pv df371) = Some (months, pt)) :
  exists out,
    run_script i = (out, Failed (NameError "df_era")) /\
    out = shown_before_era i df371 df123 months pt /\
    existsb is_Denials out = false /\
    existsb is_Workbook out = false.
Proof.
  eexists. rewrite (run_to_era_block _ _ _ _ _ H371 H123 Hpt), Hera.
  split; [reflexivity|]. split; [reflexivity|].
  split; apply existsb_shown_before_era; reflexivity.
Qed.
End Run.



Lemma absent_era_upload_raises_NameError_witness :
  exists out,
    run_script (conv := ERA.typed_cells) (Samples.uploads None)
    = (out, Failed (NameError "df_era")) /\
    Denials.den_summary Samples.eight_claims <> [] /\
    existsb is_Denials out = false /\
    existsb is_Workbook out = false.
Proof.
  destruct (absent_era_upload_raises_NameError (conv := ERA.typed_cells)
              (Samples.uploads None)
              Samples.eight_claims Samples.transactions
              (Visits.pt_months (Visits.pt true (Visits.pv Samples.eight_claims)))
              (map (fun r => Visits.mkPtFullRow r
                               (Visits.pct_share (Visits.pt_Grand_Total r) 8))
                   (Visits.concat_total
                      (Visits.pt true (Visits.pv Samples.eight_claims))))
              eq_refl eq_refl eq_refl)
    as (out & Hrun & _ & Hd & Hw).
  - vm_compute. reflexivity.
  - exists out. split; [exact Hrun|]. split; [vm_compute; discriminate|].
    split; assumption.
Defined.

End ScriptFacts.

(* ------------------------------------------------------------------ *)
(** ** Group keys: order, membership, distinctness                      *)
(* ------------------------------------------------------------------ *)

Module GroupFacts.

Import Frame FrameFacts Rows.

Lemma ascii_compare_lt_trans a b c :
  Ascii.compare a b = Lt -> Ascii.compare b c = Lt -> Ascii.compare a c = Lt.
Proof.
  unfold Ascii.compare. rewrite !N.compare_lt_iff. lia.
Qed.

Lemma string_compare_refl s : String.compare s s = Eq.
Proof.
  induction s as [|a s IH]; simpl; [reflexivity|].
  unfold Ascii.compare. now rewrite N.compare_refl.
Qed.

Lemma string_compare_lt_trans s1 : forall s2 s3,
  String.compare s1 s2 = Lt -> String.compare s2 s3 = Lt ->
  String.compare s1 s3 = Lt.
Proof.
  induction s1 as [|a s1 IH]; intros [|b s2] [|c s3]; simpl;
    try discriminate; try reflexivity.
  destruct (Ascii.compare a b) eqn:Eab; try discriminate;
    destruct (Ascii.compare b c) eqn:Ebc; try discriminate; intros H1 H2.
  - apply Ascii.compare_eq_iff in Eab, Ebc. subst.
    unfold Ascii.compare. rewrite N.compare_refl. eapply IH; eassumption.
  - apply Ascii.compare_eq_iff in Eab. subst. now rewrite Ebc.
  - apply Ascii.compare_eq_iff in Ebc. subst. now rewrite Eab.
  - now rewrite (ascii_compare_lt_trans _ _ _ Eab Ebc).
Qed.

Lemma key_lt_trans a b c : key_lt a b -> key_lt b c -> key_lt a c.
Proof.
  unfold key_lt, String.ltb. intros H1 H2.
  destruct (String.compare a b) eqn:E1; try discriminate.
  destruct (String.compare b c) eqn:E2; try discriminate.
  now rewrite (string_compare_lt_trans _ _ _ E1 E2).
Qed.

Lemma key_lt_irrefl a : ~ key_lt a a.
Proof. unfold key_lt, String.ltb. now rewrite string_compare_refl. Qed.

Lemma key_lt_or_gt a b :
  String.eqb a b = false -> String.ltb a b = false -> key_lt b a.
Proof.
  unfold key_lt, String.ltb. intros Hne Hlt.
  rewrite String.compare_antisym.
  destruct (String.compare a b) eqn:E; simpl; try reflexivity.
  - apply String.compare_eq_iff in E. apply String.eqb_neq in Hne.
    contradiction.
  - discriminate.
Qed.

Lemma In_insert_key x k l : In x (insert_key k l) <-> x = k \/ In x l.
Proof.
  induction l as [|y ys IH]; simpl; [intuition|].
  destruct (String.eqb k y) eqn:E.
  - apply String.eqb_eq in E. subst. simpl. intuition congruence.
  - destruct (String.ltb k y); simpl; [intuition|].
    rewrite IH. intuition.
Qed.

Lemma In_group_keys k ks : In k (group_keys ks) <-> In (Some k) ks.
Proof.
  induction ks as [|[x|] ks IH]; simpl.
  - tauto.
  - rewrite In_insert_key, IH. intuition congruence.
  - rewrite IH. intuition congruence.
Qed.

Lemma insert_key_sorted k l :
  StronglySorted key_lt l -> StronglySorted key_lt (insert_key k l).
Proof.
  induction 1 as [|y ys Hs IH Hall]; simpl.
  - repeat constructor.
  - destruct (String.eqb k y) eqn:E; [now constructor|].
    destruct (String.ltb k y) eqn:L.
    + constructor; [now constructor|]. constructor; [exact L|].
      eapply Forall_impl; [|exact Hall]. intros z Hz.
      eapply key_lt_trans; [exact L | exact Hz].
    + constructor; [exact IH|]. apply Forall_forall. intros z Hz.
      apply In_insert_key in Hz. destruct Hz as [->|Hz].
      * now apply key_lt_or_gt.
      * rewrite Forall_forall in Hall. now apply Hall.
Qed.

Lemma group_keys_sorted ks : StronglySorted key_lt (group_keys ks).
Proof.
  induction ks as [|[x|] ks IH]; simpl; [constructor | | exact IH].
  now apply insert_key_sorted.
Qed.

Lemma sorted_keys_NoDup l : StronglySorted key_lt l -> NoDup l.
Proof.
  induction 1 as [|y ys Hs IH Hall]; constructor; [|exact IH].
  intros Hin. rewrite Forall_forall in Hall.
  exact (key_lt_irrefl y (Hall y Hin)).
Qed.

Lemma group_keys_NoDup ks : NoDup (group_keys ks).
Proof. apply sorted_keys_NoDup, group_keys_sorted. Qed.

End GroupFacts.

(* ------------------------------------------------------------------ *)
(** ** Sums over the groups of a group-by                               *)
(* ------------------------------------------------------------------ *)

Module SumFacts.

Import Frame FrameFacts Rows GroupFacts.

Lemma group_cons {R} (key : R -> option string) k r l :
  group key k (r :: l)
  = if option_string_eqb (key r) (Some k) then r :: group key k l
    else group key k l.
Proof. reflexivity. Qed.

Lemma sumZ_nil : sumZ [] = 0.
Proof. reflexivity. Qed.

Lemma sumQ_nil : sumQ [] = 0%Q.
Proof. reflexivity. Qed.

Section OverGroups.
Context {R : Type} (key : R -> option string).

(** A row adds nothing to the groups of the keys it does not carry. *)
Lemma sumZ_groups_absent (val : R -> Z) r l ks :
  (forall k, In k ks -> key r <> Some k) ->
  sumZ (map (fun k => sumZ (map val (group key k (r :: l)))) ks)
  = sumZ (map (fun k => sumZ (map val (group key k l))) ks).
Proof.
  induction ks as [|k ks IH]; intros Hk; [reflexivity|].
  cbn [map]. rewrite !sumZ_cons, group_cons.
  assert (E : option_string_eqb (key r) (Some k) = false)
    by (apply option_string_eqb_neq, Hk; now left).
  rewrite E, IH; [reflexivity|]. intros k' Hk'. apply Hk. now right.
Qed.

(** A row adds its value once, to the group of its key. *)
Lemma sumZ_groups_present (val : R -> Z) r l ks k0 :
  key r = Some k0 -> NoDup ks -> In k0 ks ->
  sumZ (map (fun k => sumZ (map val (group key k (r :: l)))) ks)
  = val r + sumZ (map (fun k => sumZ (map val (group key k l))) ks).
Proof.
  intros Hr. induction ks as [|k ks IH]; intros Hnd Hin; [destruct Hin|].
  inversion Hnd as [|? ? Hnotin Hnd']; subst.
  cbn [map]. rewrite !sumZ_cons, group_cons, Hr.
  destruct (option_string_eqb (Some k0) (Some k)) eqn:E.
  - apply option_string_eqb_eq in E. injection E as ->.
    cbn [map]. rewrite sumZ_cons.
    rewrite sumZ_groups_absent; [lia|].
    intros k' Hk' Heq. rewrite Hr in Heq. injection Heq as ->. contradiction.
  - apply option_string_eqb_neq in E.
    destruct Hin as [->|Hin]; [congruence|]. rewrite (IH Hnd' Hin). lia.
Qed.

Lemma sumZ_groups_nil (val : R -> Z) ks :
  sumZ (map (fun k => sumZ (map val (group key k []))) ks) = 0.
Proof.
  induction ks as [|k ks IH]; [reflexivity|].
  cbn [map]. rewrite sumZ_cons, IH. reflexivity.
Qed.

Lemma sumZ_over_groups (val : R -> Z) rows ks :
  NoDup ks ->
  (forall r k, In r rows -> key r = Some k -> In k ks) ->
  sumZ (map (fun k => sumZ (map val (group key k rows))) ks)
  = sumZ (map val (filter (fun r => is_some (key r)) rows)).
Proof.
  intros Hnd. induction rows as [|r l IH]; intros Hks.
  - apply sumZ_groups_nil.
  - assert (IH' := IH (fun r' k Hin => Hks r' k (or_intror Hin))).
    cbn [filter]. destruct (key r) as [k0|] eqn:Hr; cbn [is_some].
    + rewrite (sumZ_groups_present val r l ks k0 Hr Hnd);
        [|apply (Hks r); [now left | exact Hr]].
      cbn [map]. rewrite sumZ_cons, IH'. reflexivity.
    + rewrite sumZ_groups_absent; [exact IH'|].
      intros k _. rewrite Hr. discriminate.
Qed.

Lemma sumQ_groups_absent (val : R -> Q) r l ks :
  (forall k, In k ks -> key r <> Some k) ->
  (sumQ (map (fun k => sumQ (map val (group key k (r :: l)))) ks)
   == sumQ (map (fun k => sumQ (map val (group key k l))) ks))%Q.
Proof.
  induction ks as [|k ks IH]; intros Hk; [reflexivity|].
  cbn [map]. rewrite !sumQ_cons, group_cons.
  assert (E : option_string_eqb (key r) (Some k) = false)
    by (apply option_string_eqb_neq, Hk; now left).
  rewrite E, IH; [reflexivity|]. intros k' Hk'. apply Hk. now right.
Qed.

Lemma sumQ_groups_present (val : R -> Q) r l ks k0 :
  key r = Some k0 -> NoDup ks -> In k0 ks ->
  (sumQ (map (fun k => sumQ (map val (group key k (r :: l)))) ks)
   == val r + sumQ (map (fun k => sumQ (map val (group key k l))) ks))%Q.
Proof.
  intros Hr. induction ks as [|k ks IH]; intros Hnd Hin; [destruct Hin|].
  inversion Hnd as [|? ? Hnotin Hnd']; subst.
  cbn [map]. rewrite !sumQ_cons, group_cons, Hr.
  destruct (option_string_eqb (Some k0) (Some k)) eqn:E.
  - apply option_string_eqb_eq in E. injection E as ->.
    cbn [map]. rewrite sumQ_cons.
    rewrite sumQ_groups_absent; [ring|].
    intros k' Hk' Heq. rewrite Hr in Heq. injection Heq as ->. contradiction.
  - apply option_string_eqb_neq in E.
    destruct Hin as [->|Hin]; [congruence|]. rewrite (IH Hnd' Hin). ring.
Qed.

Lemma sumQ_groups_nil (val : R -> Q) ks :
  (sumQ (map (fun k => sumQ (map val (group key k []))) ks) == 0)%Q.
Proof.
  induction ks as [|k ks IH]; [reflexivity|].
  cbn [map]. rewrite sumQ_cons, IH. reflexivity.
Qed.

Lemma sumQ_over_groups (val : R -> Q) rows ks :
  NoDup ks ->
  (forall r k, In r rows -> key r = Some k -> In k ks) ->
  (sumQ (map (fun k => sumQ (map val (group key k rows))) ks)
   == sumQ (map val (filter (fun r => is_some (key r)) rows)))%Q.
Proof.
  intros Hnd. induction rows as [|r l IH]; intros Hks.
  - apply sumQ_groups_nil.
  - assert (IH' := IH (fun r' k Hin => Hks r' k (or_intror Hin))).
    cbn [filter]. destruct (key r) as [k0|] eqn:Hr; cbn [is_some].
    + rewrite (sumQ_groups_present val r l ks k0 Hr Hnd);
        [|apply (Hks r); [now left | exact Hr]].
      cbn [map]. rewrite sumQ_cons, IH'. reflexivity.
    + rewrite sumQ_groups_absent; [exact IH'|].
      intros k _. rewrite Hr. discriminate.
Qed.
End OverGroups.

(** The group keys of a batch cover the keys of its rows. *)
Lemma group_keys_cover {R} (key : R -> option string) rows r k :
  In r rows -> key r = Some k -> In k (group_keys (map key rows)).
Proof.
  intros Hin Hk. apply In_group_keys. rewrite <- Hk. now apply in_map.
Qed.

Lemma filter_all {A} (f : A -> bool) l :
  (forall x, In x l -> f x = true) -> filter f l = l.
Proof.
  induction l as [|x xs IH]; intros H; simpl; [reflexivity|].
  rewrite (H x (or_introl eq_refl)), IH; [reflexivity|].
  intros y Hy. apply H. now right.
Qed.

Lemma Forall_filter_nil {A} (f : A -> bool) l :
  Forall (fun x => f x = false) l -> filter f l = [].
Proof.
  induction 1 as [|x xs Hx _ IH]; simpl; [reflexivity|]. now rewrite Hx.
Qed.

End SumFacts.

(* ------------------------------------------------------------------ *)
(** ** Distinct claim numbers, and deduplicating twice                  *)
(* ------------------------------------------------------------------ *)

Module DistinctFacts.

Import Frame FrameFacts Rows Dedup SumFacts.

Lemma mem_In x l : Str.mem x l = true <-> In x l.
Proof.
  unfold Str.mem. rewrite existsb_exists. split.
  - intros (y & Hy & E). apply String.eqb_eq in E. now subst.
  - intros H. exists x. split; [assumption | apply String.eqb_refl].
Qed.

Lemma distinct_In x l : In x (distinct l) <-> In (Some x) l.
Proof.
  induction l as [|[y|] l IH]; simpl.
  - tauto.
  - destruct (Str.mem y (distinct l)) eqn:E.
    + apply mem_In in E. rewrite IH. split; [auto|].
      intros [[= ->]|H]; [now apply IH | exact H].
    + simpl. rewrite IH. intuition congruence.
  - rewrite IH. intuition congruence.
Qed.

Lemma distinct_NoDup l : NoDup (distinct l).
Proof.
  induction l as [|[y|] l IH]; simpl; [constructor | | exact IH].
  destruct (Str.mem y (distinct l)) eqn:E; [exact IH|].
  constructor; [|exact IH]. intros H. apply mem_In in H. congruence.
Qed.

(** The distinct count depends only on which values occur. *)
Lemma nunique_same_values l l' :
  (forall x, In (Some x) l <-> In (Some x) l') -> nunique l = nunique l'.
Proof.
  intros H. unfold nunique. f_equal. apply Permutation_length.
  apply NoDup_Permutation; try apply distinct_NoDup.
  intros x. rewrite !distinct_In. apply H.
Qed.

Lemma sumZ_counted_length rows :
  sumZ (map counted rows) = Z.of_nat (List.length (filter has_claim_no rows)).
Proof.
  induction rows as [|r l IH]; [reflexivity|].
  cbn [map filter]. rewrite sumZ_cons, IH. unfold counted.
  destruct (has_claim_no r); cbn [List.length]; lia.
Qed.

(** Among rows with pairwise distinct claim numbers, the distinct count is
    the number of rows that carry one. *)
Lemma nunique_distinct_rows rows :
  NoDup (map Claim_No rows) ->
  nunique (map Claim_No rows) = sumZ (map counted rows).
Proof.
  unfold nunique. induction rows as [|r l IH]; intros Hnd; [reflexivity|].
  cbn [map] in *. inversion Hnd as [|? ? Hnotin Hnd']; subst.
  rewrite sumZ_cons, <- (IH Hnd'). unfold counted, has_claim_no.
  cbn [distinct]. destruct (Claim_No r) as [x|] eqn:E; cbn [is_some].
  - destruct (Str.mem x (distinct (map Claim_No l))) eqn:M.
    + apply mem_In, distinct_In in M. contradiction.
    + cbn [List.length]. lia.
  - lia.
Qed.

Lemma NoDup_map_filter {A B} (f : A -> B) (p : A -> bool) l :
  NoDup (map f l) -> NoDup (map f (filter p l)).
Proof.
  induction l as [|x xs IH]; simpl; [auto|].
  intros Hnd. inversion Hnd as [|? ? Hnotin Hnd']; subst.
  destruct (p x); simpl; [|auto]. constructor; [|auto].
  intros Hin. apply Hnotin. apply in_map_iff in Hin.
  destruct Hin as (y & Hy & Hin). apply filter_In in Hin.
  rewrite <- Hy. apply in_map. tauto.
Qed.

(** Rows whose claim numbers are pairwise distinct, and not seen before,
    all pass the deduplication. *)
Lemma drop_from_distinct seen rows :
  NoDup (map Claim_No rows) ->
  (forall k, In k (map Claim_No rows) -> ~ In k seen) ->
  drop_from seen rows = rows.
Proof.
  revert seen. induction rows as [|r l IH]; intros seen Hnd Hseen;
    [reflexivity|].
  cbn [map] in *. inversion Hnd as [|? ? Hnotin Hnd']; subst.
  cbn [drop_from].
  assert (E : seen_before (Claim_No r) seen = false).
  { apply DedupFacts.seen_before_not_In. apply Hseen. now left. }
  rewrite E. f_equal. apply IH; [exact Hnd'|].
  intros k Hk [<-|Hs]; [contradiction|].
  apply (Hseen k); [now right | exact Hs].
Qed.

Lemma map_Claim_No_normalize rows :
  map Claim_No (map Prep.normalize_line rows) = map Claim_No rows.
Proof. rewrite map_map. reflexivity. Qed.

Lemma claims_NoDup b : NoDup (map Claim_No (Prep.claims b)).
Proof.
  unfold Prep.claims. rewrite map_Claim_No_normalize.
  apply DedupFacts.drop_from_NoDup.
Qed.

Lemma claims_have_payer_and_provider b r :
  In r (Prep.claims b) ->
  (exists p, Primary_Payer r = Some p) /\
  (exists p, Rendering_Provider r = Some p).
Proof.
  unfold Prep.claims. intros H. apply in_map_iff in H.
  destruct H as (x & <- & _). simpl. eauto.
Qed.

(** X1.  Deduplicating is idempotent: a batch already deduplicated, or
    any selection of its rows, passes a second [drop_duplicates]
    unchanged.  So the [drop_duplicates] of line 142 never removes a row:
    [pv] is the claims after the cutoff and provider filters. *)
Theorem second_drop_duplicates_is_identity :
  (forall rows, drop_duplicates (drop_duplicates rows) = drop_duplicates rows) /\
  (forall rows p,
      drop_duplicates (filter p (drop_duplicates rows))
      = filter p (drop_duplicates rows)) /\
  (forall b,
      Visits.pv b
      = filter (fun r => negb (Prep.is_excluded_provider r))
          (if Prep.has_column b "Start Date of Service"
           then filter Visits.on_or_after_cutoff (Prep.claims b)
           else Prep.claims b)).
Proof.
  assert (Hsub : forall rows p,
             drop_duplicates (filter p (drop_duplicates rows))
             = filter p (drop_duplicates rows)).
  { intros rows p. unfold drop_duplicates at 1.
    apply drop_from_distinct; [|intros k _ []].
    apply NoDup_map_filter, DedupFacts.drop_from_NoDup. }
  split; [|split; [exact Hsub|]].
  - intros rows. pose proof (Hsub rows (fun _ => true)) as H.
    rewrite filter_all in H by reflexivity. exact H.
  - intros b. unfold Visits.pv, drop_duplicates.
    apply drop_from_distinct; [|intros k _ []].
    apply NoDup_map_filter.
    destruct (Prep.has_column b "Start Date of Service");
      [apply NoDup_map_filter|]; apply claims_NoDup.
Qed.


End DistinctFacts.

(* ------------------------------------------------------------------ *)
(** ** What the grand totals add up to                                  *)
(* ------------------------------------------------------------------ *)

Module TotalsFacts.

Import Frame FrameFacts Rows GroupFacts SumFacts DistinctFacts.

Lemma sumQ_map_ext_in {A} (f g : A -> Q) l :
  (forall x, In x l -> (f x == g x)%Q) -> (sumQ (map f l) == sumQ (map g l))%Q.
Proof.
  induction l as [|x xs IH]; intros H; [reflexivity|].
  cbn [map]. rewrite !sumQ_cons, (H x (or_introl eq_refl)), IH; [reflexivity|].
  intros y Hy. apply H. now right.
Qed.

Lemma sumQ_split {A} (f : A -> Q) (p q : A -> bool) (l : list A) :
  (forall x, q x = negb (p x)) ->
  (sumQ (map f l)
   == sumQ (map f (filter p l)) + sumQ (map f (filter q l)))%Q.
Proof.
  intros Hq. induction l as [|x xs IH]; cbn [map filter].
  - rewrite sumQ_nil. ring.
  - rewrite Hq. destruct (p x); cbn [negb map]; rewrite !sumQ_cons, IH; ring.
Qed.

(** *** Monthly summary *)

Lemma monthly_column_total (f : Monthly.Transaction -> Q) rows :
  (sumQ (map (fun k => sumQ (map f (group Monthly.Month k rows)))
             (group_keys (map Monthly.Month rows)))
   == sumQ (map f rows))%Q.
Proof.
  rewrite sumQ_over_groups.
  - rewrite filter_all; [reflexivity|]. intros t _. unfold Monthly.Month.
    now destruct (Monthly.t_Date t).
  - apply group_keys_NoDup.
  - intros r k. apply group_keys_cover.
Qed.

(** X3.  The Grand Total row of the monthly summary holds, in each of its
    four columns, the sum of that amount over every transaction of the
    batch, the undated ones included (they form the group of the key
    "NaT"); a missing amount counts as zero. *)
Theorem monthly_grand_total_is_batch_total (rows : list Monthly.Transaction) :
  let tot := Monthly.total_row (Monthly.monthly_summary rows) in
  (Monthly.BILLED_CHARGES tot
   == sumQ (map (fun t => Monthly.skipna (Monthly.t_Billed_Charges t)) rows))%Q /\
  (Monthly.PATIENT_PAYMENTS tot
   == sumQ (map (fun t => Monthly.skipna (Monthly.t_Patient_Payments t)) rows))%Q /\
  (Monthly.PAYER_PAYMENTS tot
   == sumQ (map (fun t => Monthly.skipna (Monthly.t_Payer_Payments t)) rows))%Q /\
  (Monthly.CONTRACTUAL_ADJUSTMENTS tot
   == sumQ (map (fun t => Monthly.skipna (Monthly.t_Contractual_Adjustments t))
                rows))%Q.
Proof.
  cbv zeta. unfold Monthly.total_row, Monthly.monthly_summary.
  cbn [Monthly.BILLED_CHARGES Monthly.PATIENT_PAYMENTS Monthly.PAYER_PAYMENTS
       Monthly.CONTRACTUAL_ADJUSTMENTS].
  rewrite !map_map.
  cbn [Monthly.BILLED_CHARGES Monthly.PATIENT_PAYMENTS Monthly.PAYER_PAYMENTS
       Monthly.CONTRACTUAL_ADJUSTMENTS].
  repeat split; apply monthly_column_total.
Qed.

(** *** Payments by payer *)

Lemma li_have_payer b r :
  In r (Reach.li b) -> is_some (Primary_Payer r) = true.
Proof.
  unfold Reach.li, Prep.line_items. intros H. apply filter_In in H.
  destruct H as [H _]. apply in_map_iff in H. destruct H as (x & <- & _).
  reflexivity.
Qed.

Lemma payments_fold_keeps_total tbl :
  (sumQ (map snd (Payments.fold_minor tbl)) == sumQ (map snd tbl))%Q.
Proof.
  unfold Payments.fold_minor.
  rewrite (sumQ_perm _ _ (Permutation_map snd (sort_values_desc_perm _ _))).
  set (thr := Payments.minor_threshold_amount tbl).
  change Payments.Amount with (@snd string Q).
  rewrite (sumQ_split snd (fun r => Qle_bool thr (snd r))
                      (fun r => Payments.Qlt_bool (snd r) thr) tbl)
    by (intros x; apply FoldFacts.Qlt_bool_negb_le).
  destruct (filter (fun r => Payments.Qlt_bool (snd r) thr) tbl)
    as [|m ms] eqn:E.
  - cbn [map]. rewrite sumQ_nil. ring.
  - rewrite map_app, sumQ_app.
    change (map snd [(Payments.OTHER, sumQ (map snd (m :: ms)))])
      with [sumQ (map snd (m :: ms))].
    rewrite (sumQ_cons (sumQ _) []), sumQ_nil. ring.
Qed.

(** X4.  The payments-by-payer table loses no payment: before and after
    the folding of minor payers its amounts add up to the payer payments
    of all line items that are not of the excluded provider (a line with
    no payer is counted under 'Unknown'). *)
Theorem payments_by_payer_keeps_total (b : Prep.batch371) :
  (sumQ (map snd (Payments.payments_by_payer b))
   == sumQ (map Payer_Payment (Reach.li b)))%Q /\
  (sumQ (map snd (Payments.payments_by_payer_final b))
   == sumQ (map Payer_Payment (Reach.li b)))%Q.
Proof.
  assert (H : (sumQ (map snd (Payments.payments_by_payer b))
               == sumQ (map Payer_Payment (Reach.li b)))%Q).
  { unfold Payments.payments_by_payer, groupby_sum. fold (Reach.li b).
    rewrite map_map. cbn [snd]. rewrite sumQ_over_groups.
    - rewrite filter_all; [reflexivity|]. apply li_have_payer.
    - apply group_keys_NoDup.
    - intros r k. apply group_keys_cover. }
  split; [exact H|].
  unfold Payments.payments_by_payer_final.
  rewrite payments_fold_keeps_total. exact H.
Qed.

(** X5.  The threshold of the folding is always positive, so a payer whose
    payments sum to zero or less is never listed on its own: it is among
    the folded payers, and the table then has an "Other minor payers" row
    holding the sum of the folded amounts. *)
Theorem unpaid_payers_are_always_folded (tbl : list (string * Q))
  (r : string * Q) (Hin : In r tbl) (Hpaid : (snd r <= 0)%Q) :
  let thr := Payments.minor_threshold_amount tbl in
  let minor := filter (fun x => Payments.Qlt_bool (snd x) thr) tbl in
  (0 < thr)%Q /\
  In r minor /\
  In ("Other minor payers", sumQ (map snd minor)) (Payments.fold_minor tbl).
Proof.
  cbv zeta. pose proof (FoldFacts.minor_threshold_amount_pos tbl) as Hpos.
  assert (Hm : In r (filter (fun x => Payments.Qlt_bool (snd x)
                               (Payments.minor_threshold_amount tbl)) tbl)).
  { apply filter_In. split; [exact Hin|]. apply FoldFacts.Qlt_bool_iff. lra. }
  split; [exact Hpos|]. split; [exact Hm|].
  unfold Payments.fold_minor.
  apply (Permutation_in _ (Permutation_sym (sort_values_desc_perm _ _))).
  change (fun r0 : string * Q =>
            Payments.Qlt_bool (Payments.Amount r0)
              (Payments.minor_threshold_amount tbl))
    with (fun x : string * Q =>
            Payments.Qlt_bool (snd x) (Payments.minor_threshold_amount tbl)).
  destruct (filter (fun x => Payments.Qlt_bool (snd x)
                               (Payments.minor_threshold_amount tbl)) tbl)
    as [|m ms] eqn:E; [destruct Hm|].
  apply in_or_app. right. left. reflexivity.
Qed.

Lemma unpaid_payers_are_always_folded_witness :
  In ("Other minor payers", 0#1)
     (Payments.fold_minor [("Aetna", 40#1); ("Unknown", 0#1)]).
Proof.
  assert (Hin : In ("Unknown", 0#1) [("Aetna", 40#1); ("Unknown", 0#1)])
    by (right; left; reflexivity).
  assert (Hle : (snd ("Unknown", 0#1) <= 0)%Q) by (simpl; lra).
  destruct (unpaid_payers_are_always_folded _ _ Hin Hle) as (_ & _ & H).
  exact H.
Defined.

End TotalsFacts.

(* ------------------------------------------------------------------ *)
(** ** What the claim counts add up to                                  *)
(* ------------------------------------------------------------------ *)

Module CountsFacts.

Import Frame FrameFacts Rows GroupFacts SumFacts DistinctFacts.

Lemma sumZ_map_ext_in {A} (f g : A -> Z) l :
  (forall x, In x l -> f x = g x) -> sumZ (map f l) = sumZ (map g l).
Proof.
  intros H. f_equal. now apply map_ext_in.
Qed.

Lemma NoDup_group {R} (key : R -> option string) (f : R -> option string)
  k rows :
  NoDup (map f rows) -> NoDup (map f (group key k rows)).
Proof. apply NoDup_map_filter. Qed.

(** *** Payer mix *)

Lemma pm_counts_total cl :
  NoDup (map Claim_No cl) ->
  (forall r, In r cl -> is_some (Primary_Payer r) = true) ->
  sumZ (map snd (PayerMix.pm_counts cl)) = sumZ (map counted cl).
Proof.
  intros Hnd Hp. unfold PayerMix.pm_counts, groupby_nunique.
  rewrite map_map. cbn [snd].
  rewrite (sumZ_map_ext_in _
             (fun k => sumZ (map counted (group Primary_Payer k cl))))
    by (intros k _; apply nunique_distinct_rows, NoDup_group, Hnd).
  rewrite sumZ_over_groups.
  - now rewrite filter_all.
  - apply group_keys_NoDup.
  - intros r k. apply group_keys_cover.
Qed.

Lemma nunique_claims b :
  nunique (map Claim_No (Prep.claims b))
  = nunique (map Claim_No (Prep.lines371 b)).
Proof.
  apply nunique_same_values. intros x. unfold Prep.claims.
  rewrite map_Claim_No_normalize. unfold Dedup.drop_duplicates.
  rewrite DedupFacts.drop_from_keys. simpl. tauto.
Qed.

(** X6.  The counts of the payer-mix table, folded or not, add up to the
    number of distinct claim numbers of the batch: every claim is counted
    once, under its first line's payer or under 'Unknown'. *)
Theorem payer_mix_counts_every_claim_once (b : Prep.batch371) :
  sumZ (map snd (PayerMix.pm_counts (Prep.claims b)))
  = nunique (map Claim_No (Prep.lines371 b)) /\
  sumZ (map PayerMix.mix_Claims (PayerMix.payer_mix b))
  = nunique (map Claim_No (Prep.lines371 b)).
Proof.
  assert (H : sumZ (map snd (PayerMix.pm_counts (Prep.claims b)))
              = nunique (map Claim_No (Prep.lines371 b))).
  { rewrite pm_counts_total.
    - rewrite <- nunique_distinct_rows by apply claims_NoDup.
      apply nunique_claims.
    - apply claims_NoDup.
    - intros r Hr. destruct (claims_have_payer_and_provider b r Hr)
        as [[p ->] _]. reflexivity. }
  split; [exact H|].
  unfold PayerMix.payer_mix, PayerMix.payer_mix_of_counts.
  rewrite FoldFacts.claims_of_add_Pct.
  change PayerMix.Claims with (@snd string Z).
  rewrite (sumZ_perm _ _ (Permutation_map snd (FoldFacts.fold_minor_perm _))).
  rewrite FoldFacts.folded_counts_sum. exact H.
Qed.

(** *** The provider-visit cross-tab *)

Lemma filter_andb {A} (f g : A -> bool) l :
  filter (fun x => f x && g x) l = filter g (filter f l).
Proof.
  induction l as [|x xs IH]; simpl; [reflexivity|].
  destruct (f x); simpl; [destruct (g x)|]; now rewrite IH.
Qed.

Lemma cell_group hcd g p m :
  filter (Visits.in_cell hcd p m) g
  = group (Visits.Month hcd) m (group Rendering_Provider p g).
Proof. unfold Visits.in_cell, group. apply filter_andb. Qed.

Lemma grouped_have_keys hcd rows r :
  In r (Visits.grouped hcd rows) ->
  is_some (Rendering_Provider r) = true /\
  is_some (Visits.Month hcd r) = true.
Proof.
  unfold Visits.grouped. intros H. apply filter_In in H.
  destruct H as [_ H]. unfold Visits.in_groupby in H.
  destruct (Rendering_Provider r); [|discriminate].
  destruct (Visits.Month hcd r); [|discriminate]. now split.
Qed.

(** The 'Grand Total' of a provider's row counts the provider's rows. *)
Lemma row_total_counts hcd rows p :
  NoDup (map Claim_No rows) ->
  let g := Visits.grouped hcd rows in
  sumZ (map (Visits.cell hcd g p) (group_keys (map (Visits.Month hcd) g)))
  = sumZ (map counted (group Rendering_Provider p g)).
Proof.
  intros Hnd g.
  assert (Hg : NoDup (map Claim_No g)) by now apply NoDup_map_filter.
  rewrite (sumZ_map_ext_in _
             (fun m => sumZ (map counted
                           (group (Visits.Month hcd) m
                                  (group Rendering_Provider p g))))).
  - rewrite sumZ_over_groups.
    + rewrite filter_all; [reflexivity|]. intros r Hr.
      apply filter_In in Hr. now apply (grouped_have_keys hcd rows).
    + apply group_keys_NoDup.
    + intros r k Hr. apply filter_In in Hr. now apply group_keys_cover.
  - intros m _. unfold Visits.cell. rewrite cell_group.
    apply nunique_distinct_rows. now do 2 apply NoDup_group.
Qed.

Lemma pt_total_counts hcd rows :
  NoDup (map Claim_No rows) ->
  Visits.pt_Grand_Total (Visits.total_row (Visits.pt hcd rows))
  = sumZ (map counted (Visits.grouped hcd rows)).
Proof.
  intros Hnd. unfold Visits.total_row, Visits.pt.
  cbn [Visits.pt_Grand_Total Visits.pt_rows]. rewrite map_map.
  cbn [Visits.pt_Grand_Total].
  rewrite (sumZ_map_ext_in _
             (fun p => sumZ (map counted
                           (group Rendering_Provider p
                                  (Visits.grouped hcd rows)))))
    by (intros p _; now apply row_total_counts).
  rewrite sumZ_over_groups.
  - rewrite filter_all; [reflexivity|]. intros r Hr.
    now apply (grouped_have_keys hcd rows).
  - apply group_keys_NoDup.
  - intros r k. apply group_keys_cover.
Qed.

(** X7.  The overall grand total of the provider-visit table is the number
    of rows of [pv] that have a provider, a month label and a claim
    number; a provider's 'Grand Total' is the number of such rows of that
    provider.  No claim is counted twice and none of these is left out. *)
Theorem cross_tab_counts_every_visit_once (hcd : bool) (b : Prep.batch371) :
  let pv := Visits.pv b in
  Visits.pt_Grand_Total (Visits.total_row (Visits.pt hcd pv))
  = Z.of_nat (List.length (filter (Reach.counted_visit hcd) pv)) /\
  forall r, In r (Visits.pt_rows (Visits.pt hcd pv)) ->
    Visits.pt_Grand_Total r
    = Z.of_nat (List.length
        (filter (fun x => Reach.counted_visit hcd x &&
                          option_string_eqb (Rendering_Provider x)
                                            (Some (Visits.pt_index r)))
                pv)).
Proof.
  cbv zeta.
  assert (Hnd : NoDup (map Claim_No (Visits.pv b)))
    by apply DedupFacts.drop_from_NoDup.
  split.
  - rewrite (pt_total_counts hcd _ Hnd), sumZ_counted_length.
    unfold Visits.grouped, Reach.counted_visit. now rewrite filter_andb.
  - intros r Hr. unfold Visits.pt in Hr. cbn [Visits.pt_rows] in Hr.
    apply in_map_iff in Hr. destruct Hr as (p & <- & _).
    cbn [Visits.pt_Grand_Total Visits.pt_index].
    rewrite (row_total_counts hcd _ p Hnd), sumZ_counted_length.
    unfold Visits.grouped, group, Reach.counted_visit.
    rewrite <- !filter_andb. do 2 f_equal. apply filter_ext. intros x.
    destruct (Visits.in_groupby hcd x), (has_claim_no x),
      (option_string_eqb (Rendering_Provider x) (Some p)); reflexivity.
Qed.

End CountsFacts.

(* ------------------------------------------------------------------ *)
(** ** Shape of the cross-tab, and the shares                            *)
(* ------------------------------------------------------------------ *)

Module ShapeFacts.

Import Frame FrameFacts Rows GroupFacts SumFacts.

Lemma sumZ_map_add {A} (f g : A -> Z) l :
  sumZ (map (fun j => f j + g j) l) = sumZ (map f l) + sumZ (map g l).
Proof.
  induction l as [|x xs IH]; [reflexivity|].
  cbn [map]. rewrite !sumZ_cons, IH. lia.
Qed.

Lemma sumZ_map_zero {A} (l : list A) : sumZ (map (fun _ => 0) l) = 0.
Proof.
  induction l as [|x xs IH]; [reflexivity|].
  cbn [map]. rewrite sumZ_cons, IH. reflexivity.
Qed.

Lemma map_nth_seq (l : list Z) :
  map (fun j => nth j l 0) (seq 0 (List.length l)) = l.
Proof.
  induction l as [|x xs IH]; [reflexivity|].
  cbn [List.length seq map nth]. f_equal.
  rewrite <- seq_shift, map_map. exact IH.
Qed.

Lemma sumZ_nonneg l : Forall (fun x => 0 <= x) l -> 0 <= sumZ l.
Proof.
  induction 1 as [|x xs Hx _ IH]; [reflexivity|]. rewrite sumZ_cons. lia.
Qed.

Lemma sumZ_member_le l x :
  Forall (fun y => 0 <= y) l -> In x l -> 0 <= x <= sumZ l.
Proof.
  induction 1 as [|y ys Hy Hall IH]; intros Hin; [destruct Hin|].
  rewrite sumZ_cons. pose proof (sumZ_nonneg _ Hall).
  destruct Hin as [->|Hin]; [lia|]. specialize (IH Hin). lia.
Qed.

Lemma nunique_nonneg l : 0 <= nunique l.
Proof. unfold nunique. lia. Qed.

(** Every row of [pt] has a cell per month, no negative cell, and the sum
    of its cells as 'Grand Total'. *)
Lemma pt_row_shape hcd rows r :
  In r (Visits.pt_rows (Visits.pt hcd rows)) ->
  List.length (Visits.pt_cells r)
  = List.length (Visits.pt_months (Visits.pt hcd rows)) /\
  Forall (fun c => 0 <= c) (Visits.pt_cells r) /\
  Visits.pt_Grand_Total r = sumZ (Visits.pt_cells r).
Proof.
  unfold Visits.pt. cbn [Visits.pt_rows Visits.pt_months]. intros H.
  apply in_map_iff in H. destruct H as (p & <- & _).
  cbn [Visits.pt_cells Visits.pt_Grand_Total].
  split; [apply length_map|]. split; [|reflexivity].
  apply Forall_map, Forall_forall. intros m _. apply nunique_nonneg.
Qed.

Lemma column_sums_total (n : nat) (rows : list Visits.pt_row) :
  Forall (fun r => List.length (Visits.pt_cells r) = n /\
                   Visits.pt_Grand_Total r = sumZ (Visits.pt_cells r)) rows ->
  sumZ (map (Visits.column_sum rows) (seq 0 n))
  = sumZ (map Visits.pt_Grand_Total rows).
Proof.
  induction 1 as [|r rs [Hlen Hgt] _ IH].
  - unfold Visits.column_sum. cbn [map]. apply sumZ_map_zero.
  - cbn [map]. rewrite sumZ_cons, <- IH, Hgt.
    assert (E : sumZ (Visits.pt_cells r)
                = sumZ (map (fun j => nth j (Visits.pt_cells r) 0) (seq 0 n)))
      by (now rewrite <- Hlen, map_nth_seq).
    rewrite E, <- sumZ_map_add. f_equal. apply map_ext. intros j.
    unfold Visits.column_sum. cbn [map]. now rewrite sumZ_cons.
Qed.

(** X8.  The cross-tab is consistent in both directions: every row has
    one cell per month column, none negative, and its 'Grand Total' is the
    sum of its cells; the 'Grand Total' of the total row is at once the
    sum of the rows' grand totals and the sum of the month totals.  The
    providers, and the months, are listed once each. *)
Theorem cross_tab_rows_and_columns_agree (hcd : bool) (rows : list ClaimLine) :
  let t := Visits.pt hcd rows in
  let tot := Visits.total_row t in
  (forall r, In r (Visits.concat_total t) ->
     List.length (Visits.pt_cells r) = List.length (Visits.pt_months t) /\
     Forall (fun c => 0 <= c) (Visits.pt_cells r) /\
     Visits.pt_Grand_Total r = sumZ (Visits.pt_cells r)) /\
  Visits.pt_Grand_Total tot = sumZ (map Visits.pt_Grand_Total (Visits.pt_rows t)) /\
  NoDup (map Visits.pt_index (Visits.pt_rows t)) /\
  NoDup (Visits.pt_months t).
Proof.
  cbv zeta.
  assert (Hrows : Forall (fun r =>
            List.length (Visits.pt_cells r)
            = List.length (Visits.pt_months (Visits.pt hcd rows)) /\
            Visits.pt_Grand_Total r = sumZ (Visits.pt_cells r))
            (Visits.pt_rows (Visits.pt hcd rows))).
  { apply Forall_forall. intros r Hr.
    destruct (pt_row_shape hcd rows r Hr) as (H1 & _ & H3). now split. }
  split; [|split; [reflexivity|split]].
  - intros r Hr. unfold Visits.concat_total in Hr. apply in_app_or in Hr.
    destruct Hr as [Hr|[<-|[]]]; [now apply pt_row_shape|].
    split; [|split].
    + unfold Visits.total_row. cbn [Visits.pt_cells].
      now rewrite length_map, length_seq.
    + unfold Visits.total_row. cbn [Visits.pt_cells].
      apply Forall_map, Forall_forall. intros j _. unfold Visits.column_sum.
      apply sumZ_nonneg, Forall_map, Forall_forall. intros r Hr.
      destruct (pt_row_shape hcd rows r Hr) as (Hl & Hc & _).
      destruct (Nat.lt_ge_cases j (List.length (Visits.pt_cells r))) as [Hj|Hj].
      * rewrite Forall_forall in Hc. apply Hc, nth_In, Hj.
      * rewrite nth_overflow by exact Hj. reflexivity.
    + unfold Visits.total_row at 2. cbn [Visits.pt_cells].
      rewrite (column_sums_total _ _ Hrows). reflexivity.
  - unfold Visits.pt. cbn [Visits.pt_rows]. rewrite map_map.
    cbn [Visits.pt_index]. rewrite map_id. apply group_keys_NoDup.
  - unfold Visits.pt. cbn [Visits.pt_months]. apply group_keys_NoDup.
Qed.

(** *** Shares *)

Lemma rint_between (x : Q) (a c : Z) :
  (inject_Z a <= x <= inject_Z c)%Q -> a <= Round.rint x <= c.
Proof.
  intros [Ha Hc]. destruct (RoundFacts.rint_nearest x) as [H _].
  apply Qabs_Qle_condition in H. destruct H as [H1 H2].
  split.
  - apply Z.lt_succ_r, Z.lt_pred_lt_succ. rewrite Zlt_Qlt.
    unfold Z.pred. rewrite inject_Z_plus. change (inject_Z (-1)) with (-1)%Q.
    lra.
  - apply Z.lt_succ_r. rewrite Zlt_Qlt. unfold Z.succ.
    rewrite inject_Z_plus. change (inject_Z 1) with 1%Q. lra.
Qed.

Lemma share_between (g total : Z) :
  0 <= g <= total -> 0 < total ->
  (0 <= inject_Z g / inject_Z total * 100 <= 100)%Q.
Proof.
  intros [Hg Hgt] Ht.
  assert (Ht' : (0 < inject_Z total)%Q)
    by (change 0%Q with (inject_Z 0); now rewrite <- Zlt_Qlt).
  assert (Hg' : (0 <= inject_Z g)%Q)
    by (change 0%Q with (inject_Z 0); now rewrite <- Zle_Qle).
  assert (Hgt' : (inject_Z g <= inject_Z total)%Q) by now rewrite <- Zle_Qle.
  assert (H0 : (0 <= inject_Z g / inject_Z total)%Q)
    by (apply Qle_shift_div_l; [exact Ht' | lra]).
  assert (H1 : (inject_Z g / inject_Z total <= 1)%Q)
    by (apply Qle_shift_div_r; [exact Ht' | lra]).
  split; lra.
Qed.

(** X9.  When at least one claim is counted, every '% Share' is a whole
    number between 0 and 100 and the share of the Grand Total row is
    100. *)
Theorem shares_are_percentages
  (hcd : bool) (rows : list ClaimLine)
  (months : list string) (full : list Visits.pt_full_row)
  (Hpt : Visits.pt_full hcd rows = Some (months, full))
  (Hany : Visits.pt_Grand_Total (Visits.total_row (Visits.pt hcd rows)) <> 0) :
  (forall r, In r full ->
     exists n, Visits.pf_Share r = Some n /\ 0 <= n <= 100) /\
  (exists r, last full r = r /\ In r full /\
             Visits.pt_index (Visits.pf_row r) = "Grand Total" /\
             Visits.pf_Share r = Some 100).
Proof.
  destruct (AggregatorFacts.pt_full_inv _ _ _ _ Hpt _ eq_refl)
    as (_ & -> & _ & _).
  set (t := Visits.pt hcd rows) in *.
  set (total := Visits.pt_Grand_Total (Visits.total_row t)) in *.
  assert (Hnn : Forall (fun y => 0 <= y)
                       (map Visits.pt_Grand_Total (Visits.pt_rows t))).
  { apply Forall_map, Forall_forall. intros r Hr.
    destruct (pt_row_shape hcd rows r Hr) as (_ & Hc & ->).
    now apply sumZ_nonneg. }
  assert (Htot : total = sumZ (map Visits.pt_Grand_Total (Visits.pt_rows t)))
    by reflexivity.
  assert (Hpos : 0 < total).
  { pose proof (sumZ_nonneg _ Hnn). lia. }
  assert (Hshare : forall g, 0 <= g <= total ->
            exists n, Visits.pct_share g total = Some n /\ 0 <= n <= 100).
  { intros g Hg. unfold Visits.pct_share.
    destruct (Z.eqb_spec total 0) as [E|_]; [lia|].
    eexists. split; [reflexivity|].
    apply rint_between. now apply share_between. }
  split.
  - intros r Hr. apply in_map_iff in Hr. destruct Hr as (x & <- & Hx).
    cbn [Visits.pf_Share]. apply Hshare.
    unfold Visits.concat_total in Hx. apply in_app_or in Hx.
    destruct Hx as [Hx|[<-|[]]].
    + rewrite Htot. apply sumZ_member_le; [exact Hnn|]. now apply in_map.
    + fold total. lia.
  - unfold Visits.concat_total. rewrite map_app. cbn [map].
    eexists. split; [apply last_last|].
    split; [apply in_or_app; right; left; reflexivity|].
    split; [reflexivity|]. cbn [Visits.pf_Share]. fold total.
    unfold Visits.pct_share.
    destruct (Z.eqb_spec total 0) as [E|_]; [lia|]. f_equal.
    assert (Hx : (inject_Z total / inject_Z total * 100 == 100)%Q).
    { field. change 0%Q with (inject_Z 0). rewrite inject_Z_injective. lia. }
    pose proof (rint_between (inject_Z total / inject_Z total * 100) 100 100).
    change (inject_Z 100) with 100%Q in H. rewrite Hx in H at 1 2.
    assert (100 <= 100 <= 100)%Q by (split; lra). specialize (H H0). lia.
Qed.

Lemma shares_are_percentages_witness :
  exists months full,
    Visits.pt_full true (Visits.pv Samples.eight_claims) = Some (months, full) /\
    forall r, In r full ->
      exists n, Visits.pf_Share r = Some n /\ 0 <= n <= 100.
Proof.
  assert (H : Visits.pt_full true (Visits.pv Samples.eight_claims)
          = Some (Visits.pt_months (Visits.pt true (Visits.pv Samples.eight_claims)),
                  map (fun r => Visits.mkPtFullRow r
                                  (Visits.pct_share (Visits.pt_Grand_Total r) 8))
                      (Visits.concat_total
                         (Visits.pt true (Visits.pv Samples.eight_claims)))))
    by (vm_compute; reflexivity).
  assert (Hany : Visits.pt_Grand_Total
                   (Visits.total_row (Visits.pt true (Visits.pv Samples.eight_claims)))
                 <> 0) by (vm_compute; discriminate).
  destruct (shares_are_percentages _ _ _ _ H Hany) as [Hall _].
  eexists _, _. split; [exact H | exact Hall].
Defined.

End ShapeFacts.

(* ------------------------------------------------------------------ *)
(** ** The AR-aging frame                                               *)
(* ------------------------------------------------------------------ *)

Module ARFacts.

Import Frame FrameFacts Rows SumFacts.

Lemma sumQ_five a1 a2 a3 a4 a5 :
  (sumQ [a1; a2; a3; a4; a5] == a1 + a2 + a3 + a4 + a5)%Q.
Proof. rewrite !sumQ_cons, sumQ_nil. ring. Qed.

Lemma in_bucket_cons today k r l :
  filter (ARAging.in_bucket today k) (r :: l)
  = if match ARAging.row_bucket today r with
       | Some k' => ARAging.bucket_eqb k k'
       | None => false
       end
    then r :: filter (ARAging.in_bucket today k) l
    else filter (ARAging.in_bucket today k) l.
Proof. reflexivity. Qed.

Lemma has_bucket_cons today r l :
  filter (Reach.has_bucket today) (r :: l)
  = if is_some (ARAging.row_bucket today r)
    then r :: filter (Reach.has_bucket today) l
    else filter (Reach.has_bucket today) l.
Proof. reflexivity. Qed.

(** The five bucket sums of a column add up to the column over the rows
    that have a bucket. *)
Lemma bucket_sums_total today (f : ClaimLine -> Q) df :
  (sumQ (map (fun k => sumQ (map f (filter (ARAging.in_bucket today k) df)))
             Aging.labels)
   == sumQ (map f (filter (Reach.has_bucket today) df)))%Q.
Proof.
  unfold Aging.labels. cbn [map]. rewrite sumQ_five.
  induction df as [|r l IH].
  - cbn [filter map]. rewrite sumQ_nil. ring.
  - rewrite !in_bucket_cons, has_bucket_cons.
    destruct (ARAging.row_bucket today r) as [[]|];
      cbn [ARAging.bucket_eqb is_some map];
      rewrite ?sumQ_cons, <- IH; ring.
Qed.

Lemma has_bucket_iff today r :
  Reach.has_bucket today r = true <->
  match Start_Date_of_Service r with
  | Some d => to_days d <= to_days today
  | None => True
  end.
Proof.
  unfold Reach.has_bucket, ARAging.row_bucket, Aging.AgingDays.
  destruct (Start_Date_of_Service r) as [d|]; cbn [option_map].
  - rewrite AgingFacts.AgingBucket_cases. unfold days_between.
    repeat match goal with
           | |- context [?a <=? ?b] => destruct (Z.leb_spec a b)
           end; cbn [is_some]; split; intros; try reflexivity;
      try discriminate; lia.
  - split; [trivial | reflexivity].
Qed.

(** X10.  The Grand Total row of the AR-aging summary holds, in each of
    its five columns, the sum of the column over the rows left by the
    exclusions whose service date is missing or not after today.  A line
    dated after today is in no bucket and in no total. *)
Theorem aging_grand_total_leaves_out_future_lines
  (today : date) (b : Prep.batch371) :
  let df := ARAging.ar_filter b in
  let kept := filter (Reach.has_bucket today) df in
  let tot := ARAging.total_row (ARAging.aging_summary today df) in
  (forall r, In r kept <->
     In r df /\ match Start_Date_of_Service r with
                | Some d => to_days d <= to_days today
                | None => True
                end) /\
  (ARAging.ag_Charges tot == sumQ (map ARAging.Charges kept))%Q /\
  (ARAging.ag_AllowedFee tot == sumQ (map ARAging.AllowedFee kept))%Q /\
  (ARAging.ag_ExpectedPayments tot
   == sumQ (map ARAging.ExpectedPayments kept))%Q /\
  (ARAging.ag_PaymentsCollected tot
   == sumQ (map ARAging.PaymentsCollected kept))%Q /\
  (ARAging.ag_Pending tot == sumQ (map ARAging.Pending kept))%Q.
Proof.
  cbv zeta. split.
  - intros r. rewrite filter_In, has_bucket_iff. reflexivity.
  - unfold ARAging.total_row, ARAging.aging_summary.
    cbn [ARAging.ag_Charges ARAging.ag_AllowedFee ARAging.ag_ExpectedPayments
         ARAging.ag_PaymentsCollected ARAging.ag_Pending].
    rewrite !map_map.
    cbn [ARAging.ag_Charges ARAging.ag_AllowedFee ARAging.ag_ExpectedPayments
         ARAging.ag_PaymentsCollected ARAging.ag_Pending].
    repeat split; apply bucket_sums_total.
Qed.


(** X12.  The buckets follow the age: of two claims with a bucket, the
    older one is never in a younger bucket, and a claim with no service
    date is in the oldest bucket. *)
Theorem older_claims_are_in_older_buckets (x y : Z) (bx : Aging.bucket)
  (by_ : Aging.bucket)
  (Hxy : x <= y)
  (Hx : Aging.AgingBucket (Some x) = Some bx)
  (Hy : Aging.AgingBucket (Some y) = Some by_) :
  Charts.rank bx <= Charts.rank by_ /\
  (exists bn, Aging.AgingBucket None = Some bn /\
              Charts.rank by_ <= Charts.rank bn).
Proof.
  rewrite AgingFacts.AgingBucket_cases in Hx, Hy. split.
  - repeat match type of Hx with
           | context [?a <=? ?b] => destruct (Z.leb_spec a b)
           end; try discriminate; injection Hx as <-;
    repeat match type of Hy with
           | context [?a <=? ?b] => destruct (Z.leb_spec a b)
           end; try discriminate; injection Hy as <-; simpl; lia.
  - exists Aging.BAbove120. split; [reflexivity|]. destruct by_; simpl; lia.
Qed.

Lemma older_claims_are_in_older_buckets_witness :
  Charts.rank Aging.B31_60 <= Charts.rank Aging.B91_120.
Proof.
  apply (older_claims_are_in_older_buckets 45 100 Aging.B31_60 Aging.B91_120);
    [lia | reflexivity | reflexivity].
Defined.

(** X13.  The two pie charts never plot a grand total: the frame of the
    AR chart is the five bucket rows of the summary, never empty, and the
    frame of the provider chart is one slice per provider of the
    cross-tab, with the provider's grand total. *)
Theorem charts_plot_the_data_rows
  (today : date) (b : Prep.batch371)
  (hcd : bool) (rows : list ClaimLine)
  (months : list string) (full : list Visits.pt_full_row)
  (Hpt : Visits.pt_full hcd rows = Some (months, full)) :
  Charts.chart_df (ARAging.aging_summary_full today b)
  = ARAging.aging_summary today (ARAging.ar_filter b) /\
  List.length (Charts.chart_df (ARAging.aging_summary_full today b)) = 5%nat /\
  Charts.pie_df_chart full
  = map (fun r => (Visits.pt_index r, Visits.pt_Grand_Total r))
        (Visits.pt_rows (Visits.pt hcd rows)).
Proof.
  assert (Har : Charts.chart_df (ARAging.aging_summary_full today b)
                = ARAging.aging_summary today (ARAging.ar_filter b))
    by reflexivity.
  split; [exact Har|]. split; [rewrite Har; reflexivity|].
  destruct (AggregatorFacts.pt_full_inv _ _ _ _ Hpt _ eq_refl)
    as (_ & -> & Hlab & _).
  unfold Charts.pie_df_chart, Visits.concat_total.
  rewrite map_app, filter_app. cbn [map filter Visits.pf_row].
  change (Visits.pt_index (Visits.total_row (Visits.pt hcd rows)))
    with "Grand Total".
  cbn [String.eqb Ascii.eqb Bool.eqb negb andb]. rewrite app_nil_r.
  rewrite filter_all.
  - rewrite map_map. reflexivity.
  - intros r Hr. apply in_map_iff in Hr. destruct Hr as (x & <- & Hx).
    cbn [Visits.pf_row]. rewrite Forall_forall in Hlab.
    apply negb_true_iff, String.eqb_neq, Hlab, Hx.
Qed.

Lemma charts_plot_the_data_rows_witness :
  exists months full,
    Visits.pt_full true (Visits.pv Samples.eight_claims) = Some (months, full) /\
    Charts.pie_df_chart full = [("Adams", 1); ("Brown", 7)].
Proof.
  assert (H : Visits.pt_full true (Visits.pv Samples.eight_claims)
          = Some (Visits.pt_months (Visits.pt true (Visits.pv Samples.eight_claims)),
                  map (fun r => Visits.mkPtFullRow r
                                  (Visits.pct_share (Visits.pt_Grand_Total r) 8))
                      (Visits.concat_total
                         (Visits.pt true (Visits.pv Samples.eight_claims)))))
    by (vm_compute; reflexivity).
  destruct (charts_plot_the_data_rows (mkDate 2025 3 1) Samples.eight_claims
              _ _ _ _ H) as (_ & _ & Hpie).
  eexists _, _. split; [exact H|]. rewrite Hpie. vm_compute. reflexivity.
Defined.

End ARFacts.

(* ------------------------------------------------------------------ *)
(** ** The remittance ledger                                            *)
(* ------------------------------------------------------------------ *)

Module LedgerFacts.

Import Frame FrameFacts Rows SumFacts ERA Ledger.

Section Normalizer.
Context {conv : Conversions}.

Lemma select_ok_iff cols f :
  (forall c, In c cols -> Str.mem c (columns f) = true) <->
  exists era, select cols f = Ok era.
Proof.
  unfold select. split.
  - intros H.
    assert (E : filter (fun c => negb (Str.mem c (columns f))) cols = []).
    { apply SumFacts.Forall_filter_nil. apply Forall_forall.
      intros c Hc. now rewrite (H c Hc). }
    rewrite E. eauto.
  - intros [era H] c Hc.
    destruct (filter (fun c => negb (Str.mem c (columns f))) cols) eqn:E;
      [|discriminate].
    apply AggregatorFacts.filter_nil_Forall in E.
    rewrite Forall_forall in E. specialize (E c Hc).
    now apply negb_false_iff in E.
Qed.

(** The frame before sorting: one ledger row per row of the sheet. *)
Lemma fixed_rows df era :
  select needed_cols df = Ok era ->
  fix_types (rename canonical_names era)
  = {| columns := canonical_columns;
       rows := map (ledger_row df) (rows df) |}.
Proof.
  unfold select.
  destruct (filter (fun c => negb (Str.mem c (columns df))) needed_cols);
    [|discriminate].
  intros [= <-]. unfold fix_types.
  change (Str.mem "DATE" (columns (update "CHECK/EFT #" astype_str _)))
    with true. cbv iota.
  unfold update, rename. cbn [columns rows].
  change (map _ needed_cols) with canonical_columns.
  f_equal. rewrite !map_map. apply map_ext. intros r. reflexivity.
Qed.

Lemma AMOUNT_ledger_row df rs r :
  AMOUNT {| columns := canonical_columns; rows := rs |} (ledger_row df r)
  = parsed_amount df r.
Proof.
  unfold AMOUNT, ledger_row, parsed_amount, coerce_amount, get.
  cbn [columns]. cbv [canonical_columns index_of String.eqb Ascii.eqb
                      Bool.eqb option_map nth].
  destruct (to_numeric _); reflexivity.
Qed.

Lemma era_full_ok_iff df :
  (forall c, In c needed_cols -> Str.mem c (columns df) = true) <->
  exists out, era_full df = Ok out.
Proof.
  rewrite select_ok_iff. unfold era_full.
  destruct (select needed_cols df) as [era|e]; split;
    intros [x Hx]; try discriminate; eauto.
Qed.

(** X14.  The normalizer gives a ledger exactly when the sheet has the
    five columns Payer, Method, Dated, Trace and Amount (other columns
    are ignored); otherwise it raises a KeyError that names the absent
    ones, and only those. *)
Theorem era_full_needs_the_five_columns (df : frame) :
  ((forall c, In c needed_cols -> Str.mem c (columns df) = true) <->
   exists out, era_full df = Ok out) /\
  (forall e, era_full df = Raise e ->
     exists missing, e = KeyError missing /\ missing <> [] /\
       forall c, In c missing <->
                 In c needed_cols /\ Str.mem c (columns df) = false).
Proof.
  split.
  - apply era_full_ok_iff.
  - intros e. unfold era_full, select.
    destruct (filter (fun c => negb (Str.mem c (columns df))) needed_cols)
      as [|m ms] eqn:E; [discriminate|].
    intros [= <-]. exists (m :: ms). split; [reflexivity|].
    split; [discriminate|]. intros c. rewrite <- E, filter_In, negb_true_iff.
    reflexivity.
Qed.

(** X15.  A ledger has one row per row of the sheet, in descending order
    of amount, followed by one 'Grand Total' row whose other fields are
    empty texts; every row has the five ledger cells; the grand total is
    the sum of the amounts of the sheet, an amount that does not parse
    counting as zero. *)
Theorem ledger_rows_and_total (df out : frame) (H : era_full df = Ok out) :
  exists data total,
    columns out = canonical_columns /\
    rows out = data ++ [grand_total_row total] /\
    Permutation data (map (ledger_row df) (rows df)) /\
    List.length (rows out) = S (List.length (rows df)) /\
    StronglySorted (fun a c => (c <= a)%Q) (map (AMOUNT out) data) /\
    (total == sumQ (map (parsed_amount df) (rows df)))%Q.
Proof.
  unfold era_full in H. destruct (select needed_cols df) as [era|e] eqn:E;
    [|discriminate].
  injection H as <-. rewrite (fixed_rows _ _ E).
  unfold with_total. cbn [columns rows].
  set (fr := {| columns := canonical_columns;
                rows := map (ledger_row df) (rows df) |}).
  set (sorted := sort_values_desc
                   (fun a b => Qle_bool (AMOUNT fr b) (AMOUNT fr a))
                   (map (ledger_row df) (rows df))).
  assert (Hperm : Permutation sorted (map (ledger_row df) (rows df)))
    by apply sort_values_desc_perm.
  exists sorted, (sumQ (map (AMOUNT fr) sorted)).
  split; [reflexivity|]. split; [reflexivity|]. split; [exact Hperm|].
  split; [|split].
  - rewrite length_app, (Permutation_length Hperm), length_map.
    cbn [List.length]. lia.
  - apply (sort_values_desc_by_key (AMOUNT fr)
             (fun x y => Qle_bool y x) (fun a b => (b <= a)%Q)).
    + intros a b. apply Qle_bool_iff.
    + intros a b. destruct (Qlt_le_dec a b); [right; lra | left; assumption].
    + intros a b c H1 H2. lra.
  - rewrite (sumQ_perm _ _ (Permutation_map (AMOUNT fr) Hperm)).
    rewrite map_map. apply TotalsFacts.sumQ_map_ext_in. intros r _.
    unfold fr. rewrite AMOUNT_ledger_row. reflexivity.
Qed.
End Normalizer.

Lemma ledger_rows_and_total_witness :
  exists out data total,
    era_full (conv := typed_cells) Samples.remittance = Ok out /\
    rows out = data ++ [grand_total_row total] /\
    (total == 420)%Q.
Proof.
  destruct (era_full (conv := typed_cells) Samples.remittance)
    as [out|e] eqn:H; [|vm_compute in H; discriminate].
  destruct (ledger_rows_and_total (conv := typed_cells) _ _ H)
    as (data & total & _ & Hr & _ & _ & _ & Ht).
  exists out, data, total. split; [reflexivity|]. split; [exact Hr|].
  rewrite Ht. vm_compute. reflexivity.
Defined.

End LedgerFacts.

(* ------------------------------------------------------------------ *)
(** ** The denials summary                                              *)
(* ------------------------------------------------------------------ *)

Module DenialsFacts.

Import Frame FrameFacts Rows GroupFacts SumFacts DistinctFacts.

Lemma denied_have_group r :
  Denials.is_denied r = true -> is_some (Claim_Status_Group_Name r) = true.
Proof.
  unfold Denials.is_denied.
  destruct (Claim_Status_Group_Name r); [reflexivity|].
  vm_compute. discriminate.
Qed.

Lemma Permutation_nil_iff {A} (l l' : list A) :
  Permutation l l' -> (l = [] <-> l' = []).
Proof.
  intros H. split; intros ->.
  - now apply Permutation_nil.
  - now apply Permutation_nil, Permutation_sym.
Qed.

(** X16.  The denials summary lists the status groups of the denied
    claims, each once, a group being denied when its name contains "den"
    in any case; it is empty exactly when no claim is denied; it is in
    descending order of count; its counts add up to the number of denied
    claims that have a claim number and its balances to their balance. *)
Theorem den_summary_counts_denied_claims (b : Prep.batch371) :
  let denials := filter Denials.is_denied (Prep.claims b) in
  let s := Denials.den_summary b in
  (forall k, In k (map Denials.den_Group s) <->
     exists r, In r denials /\ Claim_Status_Group_Name r = Some k) /\
  (forall row, In row s ->
     Denials.icontains "den" (Denials.den_Group row) = true) /\
  NoDup (map Denials.den_Group s) /\
  (s = [] <-> denials = []) /\
  StronglySorted Z.ge (map Denials.den_Count s) /\
  sumZ (map Denials.den_Count s)
  = Z.of_nat (List.length (filter has_claim_no denials)) /\
  (sumQ (map Denials.den_ARBalance s)
   == sumQ (map (Prep.Balance b) denials))%Q.
Proof.
  cbv zeta. unfold Denials.den_summary.
  set (denials := filter Denials.is_denied (Prep.claims b)).
  set (keys := group_keys (map Claim_Status_Group_Name denials)).
  set (tbl := map (fun k =>
                     Denials.mkDenRow k
                       (nunique (map Claim_No
                                   (group Claim_Status_Group_Name k denials)))
                       (sumQ (map (Prep.Balance b)
                                  (group Claim_Status_Group_Name k denials))))
                  keys).
  pose proof (sort_values_desc_perm
                (fun x y => Denials.den_Count x >=? Denials.den_Count y) tbl)
    as Hperm.
  assert (Hgroups : map Denials.den_Group tbl = keys).
  { unfold tbl. rewrite map_map. cbn [Denials.den_Group]. apply map_id. }
  assert (Hnd : NoDup (map Claim_No denials)).
  { apply NoDup_map_filter, claims_NoDup. }
  assert (Hkeys : forall k, In k keys <->
            exists r, In r denials /\ Claim_Status_Group_Name r = Some k).
  { intros k. unfold keys. rewrite In_group_keys, in_map_iff.
    split; intros (r & H1 & H2); exists r; tauto. }
  split; [|split; [|split; [|split; [|split; [|split]]]]].
  - intros k. rewrite <- Hkeys, <- Hgroups. split.
    + apply Permutation_in, Permutation_map, Hperm.
    + apply Permutation_in, Permutation_map, Permutation_sym, Hperm.
  - intros row Hrow. apply (Permutation_in _ Hperm) in Hrow.
    assert (Hk : In (Denials.den_Group row) keys)
      by (rewrite <- Hgroups; now apply in_map).
    apply Hkeys in Hk. destruct Hk as (r & Hr & Hg).
    apply filter_In in Hr. destruct Hr as [_ Hd].
    unfold Denials.is_denied in Hd. rewrite Hg in Hd. exact Hd.
  - apply (Permutation_NoDup (Permutation_sym (Permutation_map _ Hperm))).
    rewrite Hgroups. apply group_keys_NoDup.
  - rewrite (Permutation_nil_iff _ _ Hperm). unfold tbl. split.
    + intros H. apply map_eq_nil in H.
      assert (Hall : forall r, ~ In r denials).
      { intros r Hr.
        assert (Hd : Denials.is_denied r = true).
        { unfold denials in Hr. apply filter_In in Hr. tauto. }
        apply denied_have_group in Hd.
        destruct (Claim_Status_Group_Name r) as [k|] eqn:Hg; [|discriminate].
        assert (Hk : In k keys) by (apply Hkeys; exists r; now split).
        rewrite H in Hk. destruct Hk. }
      revert Hall. generalize denials. intros [|r l] Hl; [reflexivity|].
      exfalso. apply (Hl r). now left.
    + intros H. unfold keys. rewrite H. reflexivity.
  - apply (sort_values_desc_by_key Denials.den_Count Z.geb Z.ge).
    + intros x y. rewrite Z.geb_le. lia.
    + intros x y. lia.
    + intros x y z. lia.
  - rewrite (sumZ_perm _ _ (Permutation_map Denials.den_Count Hperm)).
    unfold tbl. rewrite map_map. cbn [Denials.den_Count].
    rewrite (CountsFacts.sumZ_map_ext_in _
               (fun k => sumZ (map counted
                             (group Claim_Status_Group_Name k denials))))
      by (intros k _; apply nunique_distinct_rows, CountsFacts.NoDup_group, Hnd).
    rewrite sumZ_over_groups.
    + rewrite filter_all; [apply sumZ_counted_length|].
      intros r Hr. apply denied_have_group. unfold denials in Hr.
      apply filter_In in Hr. tauto.
    + apply group_keys_NoDup.
    + intros r k. apply group_keys_cover.
  - rewrite (sumQ_perm _ _ (Permutation_map Denials.den_ARBalance Hperm)).
    unfold tbl. rewrite map_map. cbn [Denials.den_ARBalance].
    rewrite sumQ_over_groups.
    + rewrite filter_all; [reflexivity|].
      intros r Hr. apply denied_have_group. unfold denials in Hr.
      apply filter_In in Hr. tauto.
    + apply group_keys_NoDup.
    + intros r k. apply group_keys_cover.
Qed.

End DenialsFacts.

(* ------------------------------------------------------------------ *)
(** ** How a run ends                                                   *)
(* ------------------------------------------------------------------ *)

Module RunFacts.

Import Script.

Section Run.
Context {conv : ERA.Conversions}.

Lemma kpi_modules_no_cross_tab i df371 df123 :
  Visits.pt_full (Prep.has_column df371 "Claim Date") (Visits.pv df371) = None ->
  kpi_modules i df371 df123 [] = ([], inr (Failed (ValueError "% Share"))).
Proof.
  intros H. unfold kpi_modules, bind. rewrite H. reflexivity.
Qed.

(** X17.  A run stops at once, with nothing shown, exactly when one of the
    two required reports is not uploaded; with both reports a run never
    ends by [st.stop()]. *)
Theorem run_stops_without_a_required_report (i : inputs) :
  (file_371 i = None \/ file_123 i = None) <-> run_script i = ([], Stopped).
Proof.
  split.
  - unfold run_script, script.
    intros [H|H]; rewrite H; [|destruct (file_371 i)]; reflexivity.
  - destruct (file_371 i) as [df371|] eqn:H371; [|now left].
    destruct (file_123 i) as [df123|] eqn:H123; [|now right].
    intros Hrun. exfalso.
    destruct (Visits.pt_full (Prep.has_column df371 "Claim Date")
                             (Visits.pv df371)) as [[months pt]|] eqn:Hpt.
    + rewrite (ScriptFacts.run_to_era_block _ _ _ _ _ H371 H123 Hpt) in Hrun.
      destruct (file_era i) as [df|]; [|discriminate].
      destruct (ERA.era_full df); discriminate.
    + unfold run_script, script in Hrun. rewrite H371, H123 in Hrun.
      unfold bind at 1 in Hrun.
      rewrite (kpi_modules_no_cross_tab _ _ _ Hpt) in Hrun. discriminate.
Qed.

End Run.


End RunFacts.

(* ------------------------------------------------------------------ *)
(** ** Utility functions and month labels                               *)
(* ------------------------------------------------------------------ *)

Module UtilFacts.

Import Util.

Lemma mem_iff x l : Str.mem x l = true <-> In x l.
Proof. apply DistinctFacts.mem_In. Qed.

Lemma mem_false_iff x l : Str.mem x l = false <-> ~ In x l.
Proof.
  rewrite <- mem_iff. destruct (Str.mem x l); split; congruence.
Qed.

(** X19.  [validate_columns] reports exactly the required columns the
    frame lacks, each as often as it is required, and reports nothing
    exactly when every required column is present; the columns of the
    frame that are not required play no part. *)
Theorem validate_columns_reports_the_absent (columns required : list string) :
  (forall c, In c (validate_columns columns required) <->
             In c required /\ ~ In c columns) /\
  (validate_columns columns required = [] <-> incl required columns) /\
  (NoDup required -> NoDup (validate_columns columns required)) /\
  validate_columns columns required
  = validate_columns (filter (fun c => Str.mem c required) columns) required.
Proof.
  unfold validate_columns. split; [|split; [|split]].
  - intros c. rewrite filter_In, negb_true_iff, mem_false_iff. reflexivity.
  - split.
    + intros H c Hc. apply AggregatorFacts.filter_nil_Forall in H.
      rewrite Forall_forall in H. specialize (H c Hc).
      apply negb_false_iff in H. now apply mem_iff.
    + intros H. apply SumFacts.Forall_filter_nil, Forall_forall.
      intros c Hc. apply negb_false_iff, mem_iff, H, Hc.
  - apply NoDup_filter.
  - apply filter_ext_in. intros c Hc. f_equal.
    destruct (Str.mem c columns) eqn:E.
    + symmetry. apply mem_iff, filter_In. split; [now apply mem_iff|].
      now apply mem_iff.
    + symmetry. apply mem_false_iff. intros H. apply filter_In in H.
      destruct H as [H _]. apply mem_iff in H. congruence.
Qed.

Lemma try_parse_dates_first columns candidates :
  match try_parse_dates columns candidates with
  | Some c =>
      exists before after,
        candidates = before ++ c :: after /\ In c columns /\
        forall x, In x before -> ~ In x columns
  | None => forall x, In x candidates -> ~ In x columns
  end.
Proof.
  induction candidates as [|c cs IH]; cbn [try_parse_dates].
  - intros x [].
  - destruct (Str.mem c columns) eqn:E.
    + exists [], cs. split; [reflexivity|]. split; [now apply mem_iff|].
      intros x [].
    + apply mem_false_iff in E.
      destruct (try_parse_dates columns cs) as [c'|].
      * destruct IH as (before & after & -> & Hin & Hb).
        exists (c :: before), after. split; [reflexivity|].
        split; [exact Hin|]. intros x [<-|Hx]; [exact E | now apply Hb].
      * intros x [<-|Hx]; [exact E | now apply IH].
Qed.

(** X20.  [try_parse_dates] answers the first candidate that is a column
    of the frame, and nothing when no candidate is.  So the service date
    column is "DOS" only when "Start Date of Service" is absent; the
    provider-visit table then applies no cutoff, since it looks for
    "Start Date of Service" alone. *)
Theorem try_parse_dates_first_match_wins
  (columns candidates : list string) (b : Prep.batch371)
  (b123 : Monthly.batch123) :
  match try_parse_dates columns candidates with
  | Some c =>
      exists before after,
        candidates = before ++ c :: after /\ In c columns /\
        forall x, In x before -> ~ In x columns
  | None => forall x, In x candidates -> ~ In x columns
  end /\
  Monthly.date123_col b123
  = try_parse_dates (Monthly.columns123 b123) ["Date"] /\
  (dos_col b = Some "DOS" <->
   ~ In "Start Date of Service" (Prep.columns371 b) /\
   In "DOS" (Prep.columns371 b)) /\
  (dos_col b = Some "DOS" ->
   Visits.pv b
   = filter (fun r => negb (Prep.is_excluded_provider r)) (Prep.claims b)).
Proof.
  split; [apply try_parse_dates_first|]. split; [reflexivity|].
  assert (Hdos : dos_col b = Some "DOS" <->
                 ~ In "Start Date of Service" (Prep.columns371 b) /\
                 In "DOS" (Prep.columns371 b)).
  { unfold dos_col. cbn [try_parse_dates].
    rewrite <- mem_false_iff, <- mem_iff.
    destruct (Str.mem "Start Date of Service" (Prep.columns371 b));
      destruct (Str.mem "DOS" (Prep.columns371 b));
      split; try discriminate; try tauto; intros [? ?]; discriminate. }
  split; [exact Hdos|].
  intros H. apply Hdos in H. destruct H as [H _].
  apply mem_false_iff in H. unfold Visits.pv, Prep.has_column. rewrite H.
  unfold Dedup.drop_duplicates.
  apply DistinctFacts.drop_from_distinct; [|intros k _ []].
  apply DistinctFacts.NoDup_map_filter, DistinctFacts.claims_NoDup.
Qed.

(** *** Month labels *)

Lemma digit_inj a c : Str.digit a = Str.digit c -> a mod 10 = c mod 10.
Proof.
  unfold Str.digit. intros H. apply (f_equal N_of_ascii) in H.
  pose proof (Z.mod_pos_bound a 10 ltac:(lia)).
  pose proof (Z.mod_pos_bound c 10 ltac:(lia)).
  rewrite !N_ascii_embedding in H by lia. lia.
Qed.

(** X21.  Month labels are calendar months: two claim dates (years 0 to
    9999) get the same "YYYY-MM" label exactly when they are of the same
    month of the same year, so a column of the cross-tab holds the claims
    of one calendar month and no two columns share a month. *)
Theorem month_labels_are_calendar_months (d1 d2 : date)
  (H1 : 0 <= year d1 <= 9999 /\ 1 <= month d1 <= 12)
  (H2 : 0 <= year d2 <= 9999 /\ 1 <= month d2 <= 12) :
  strftime_Ym d1 = strftime_Ym d2 <->
  year d1 = year d2 /\ month d1 = month d2.
Proof.
  split.
  - unfold strftime_Ym, Str.pad4, Str.pad2. cbn [String.append].
    intros H. injection H as Ha Hb Hc Hd He Hf.
    apply digit_inj in Ha, Hb, Hc, Hd, He, Hf.
    split; Z.div_mod_to_equations; lia.
  - intros [Hy Hm]. unfold strftime_Ym. now rewrite Hy, Hm.
Qed.

Lemma month_labels_are_calendar_months_witness :
  strftime_Ym (mkDate 2025 1 15) = strftime_Ym (mkDate 2025 1 31).
Proof.
  apply (month_labels_are_calendar_months (mkDate 2025 1 15) (mkDate 2025 1 31));
    simpl; lia.
Defined.

End UtilFacts.
